(** * Chat-reply normalisation and keyword fallback of [app.py]

    A shallow embedding of the chat core of the portal: the helpers
    [_denumerate], [_clean], [_fallback_reply], the tables [_FALLBACK] and
    [_DEFAULT_FALLBACK], and the route handler [api_chat].

    A Python [str] is a sequence of Unicode code points, so it is modelled as
    a list of [N].  The built-ins the handlers call ([str.strip],
    [str.split], [str.splitlines], [str.join], [in], slicing, [re.sub]) are
    written out below with the behaviour CPython gives them. *)

From Stdlib Require Import List NArith ZArith Bool Lia.
From Stdlib Require Import Strings.String Strings.Ascii Strings.Byte.
Import ListNotations.

Set Implicit Arguments.

(** ** Python strings *)

Module PyStr.

Definition char := N.
Definition pystr := list char.

Open Scope N_scope.

(** Source text of this file is UTF-8; [py] turns a literal into the code
    points Python would hold for the same literal. *)
Fixpoint utf8_decode (bs : list N) : pystr :=
  match bs with
  | [] => []
  | b0 :: r0 =>
    if b0 <? 0x80 then b0 :: utf8_decode r0
    else
      match r0 with
      | [] => []
      | b1 :: r1 =>
        if b0 <? 0xE0
        then ((b0 - 0xC0) * 0x40 + (b1 - 0x80)) :: utf8_decode r1
        else
          match r1 with
          | [] => []
          | b2 :: r2 =>
            if b0 <? 0xF0
            then ((b0 - 0xE0) * 0x1000 + (b1 - 0x80) * 0x40 + (b2 - 0x80))
                   :: utf8_decode r2
            else
              match r2 with
              | [] => []
              | b3 :: r3 =>
                ((b0 - 0xF0) * 0x40000 + (b1 - 0x80) * 0x1000
                 + (b2 - 0x80) * 0x40 + (b3 - 0x80)) :: utf8_decode r3
              end
          end
      end
  end.

Definition py (s : string) : pystr :=
  utf8_decode (List.map Byte.to_N (list_byte_of_string s)).

Definition LF : char := 0x0A.
Definition CR : char := 0x0D.
Definition SP : char := 0x20.

(** [Py_UNICODE_ISSPACE]: what [str.strip], [str.split] and the regular
    expression class [\s] (on [str] patterns) test. *)
Definition isspace (c : char) : bool :=
  ((0x09 <=? c) && (c <=? 0x0D)) || ((0x1C <=? c) && (c <=? 0x20))
  || (c =? 0x85) || (c =? 0xA0) || (c =? 0x1680)
  || ((0x2000 <=? c) && (c <=? 0x200A))
  || (c =? 0x2028) || (c =? 0x2029) || (c =? 0x202F) || (c =? 0x205F)
  || (c =? 0x3000).

(** [Py_UNICODE_ISLINEBREAK]: the boundaries [str.splitlines] cuts at. *)
Definition islinebreak (c : char) : bool :=
  ((0x0A <=? c) && (c <=? 0x0D)) || ((0x1C <=? c) && (c <=? 0x1E))
  || (c =? 0x85) || (c =? 0x2028) || (c =? 0x2029).

(** Unicode category Nd as the interpreter's database has it (Unicode 14.0,
    CPython 3.11): first code point and length of each block.  This is what
    [\d] matches on [str] patterns. *)
Definition decimal_blocks : list (N * N) :=
  [ (0x30, 10); (0x660, 10); (0x6F0, 10); (0x7C0, 10); (0x966, 10);
    (0x9E6, 10); (0xA66, 10); (0xAE6, 10); (0xB66, 10); (0xBE6, 10);
    (0xC66, 10); (0xCE6, 10); (0xD66, 10); (0xDE6, 10); (0xE50, 10);
    (0xED0, 10); (0xF20, 10); (0x1040, 10); (0x1090, 10); (0x17E0, 10);
    (0x1810, 10); (0x1946, 10); (0x19D0, 10); (0x1A80, 10); (0x1A90, 10);
    (0x1B50, 10); (0x1BB0, 10); (0x1C40, 10); (0x1C50, 10); (0xA620, 10);
    (0xA8D0, 10); (0xA900, 10); (0xA9D0, 10); (0xA9F0, 10); (0xAA50, 10);
    (0xABF0, 10); (0xFF10, 10); (0x104A0, 10); (0x10D30, 10);
    (0x11066, 10); (0x110F0, 10); (0x11136, 10); (0x111D0, 10);
    (0x112F0, 10); (0x11450, 10); (0x114D0, 10); (0x11650, 10);
    (0x116C0, 10); (0x11730, 10); (0x118E0, 10); (0x11950, 10);
    (0x11C50, 10); (0x11D50, 10); (0x11DA0, 10); (0x16A60, 10);
    (0x16AC0, 10); (0x16B50, 10); (0x1D7CE, 50); (0x1E140, 10);
    (0x1E2F0, 10); (0x1E950, 10); (0x1FBF0, 10) ].

Definition in_block (c : char) (b : N * N) : bool :=
  (fst b <=? c) && (c <? fst b + snd b).

Definition isdecimal (c : char) : bool := existsb (in_block c) decimal_blocks.

Close Scope N_scope.

(** [x or ""] for an [x] that is a [str] or [None]. *)
Definition or_empty (x : option pystr) : pystr :=
  match x with
  | Some s => s
  | None => []
  end.

(** Truthiness of a [str]: [not s] holds for the empty string only. *)
Definition is_empty (s : pystr) : bool :=
  match s with
  | [] => true
  | _ :: _ => false
  end.

Fixpoint drop_while (p : char -> bool) (s : pystr) : pystr :=
  match s with
  | [] => []
  | c :: s' => if p c then drop_while p s' else s
  end.

Definition lstrip (s : pystr) : pystr := drop_while isspace s.

(** [str.rstrip()]: the string up to its last non-whitespace character. *)
Fixpoint rstrip (s : pystr) : pystr :=
  match s with
  | [] => []
  | c :: s' =>
    match rstrip s' with
    | [] => if isspace c then [] else [c]
    | r => c :: r
    end
  end.

Definition strip (s : pystr) : pystr := rstrip (lstrip s).

(** [sep.join(parts)] *)
Fixpoint join (sep : pystr) (parts : list pystr) : pystr :=
  match parts with
  | [] => []
  | [p] => p
  | p :: rest => p ++ sep ++ join sep rest
  end.

(** [str.split()] without arguments: the maximal runs of non-whitespace
    characters, in order.  [split_go] returns the word that is still open
    at the head of the string, and the words that follow it. *)
Definition push_word (w : pystr) (ws : list pystr) : list pystr :=
  match w with
  | [] => ws
  | _ :: _ => w :: ws
  end.

Fixpoint split_go (s : pystr) : pystr * list pystr :=
  match s with
  | [] => ([], [])
  | c :: s' =>
    let (w, ws) := split_go s' in
    if isspace c then ([], push_word w ws) else (c :: w, ws)
  end.

Definition split (s : pystr) : list pystr :=
  let (w, ws) := split_go s in push_word w ws.

(** [str.splitlines()]: a line ends at a line-break character, CR LF
    counting as one; the breaks are dropped, and text after the last break
    is a line only when it is not empty. *)
Fixpoint splitlines (s : pystr) : list pystr :=
  match s with
  | [] => []
  | c :: s' =>
    if islinebreak c then
      if N.eqb c CR then
        match s' with
        | d :: s'' =>
          if N.eqb d LF then [] :: splitlines s'' else [] :: splitlines s'
        | [] => [[]]
        end
      else [] :: splitlines s'
    else
      match splitlines s' with
      | [] => [[c]]
      | l :: ls => (c :: l) :: ls
      end
  end.

(** [k in s] for strings: [k] occurs in [s] as a contiguous run. *)
Fixpoint startswith (s k : pystr) {struct k} : bool :=
  match k, s with
  | [], _ => true
  | _ :: _, [] => false
  | a :: k', b :: s' => N.eqb a b && startswith s' k'
  end.

Fixpoint contains (s k : pystr) : bool :=
  startswith s k ||
  match s with
  | [] => false
  | _ :: s' => contains s' k
  end.

(** [l[:k]] for an integer [k]: a negative [k] counts from the end. *)
Definition slice_to (A : Type) (l : list A) (k : Z) : list A :=
  let n := Z.of_nat (List.length l) in
  let stop := if (k <? 0)%Z then Z.max (n + k) 0 else Z.min k n in
  firstn (Z.to_nat stop) l.

End PyStr.

Import PyStr.

(** ** The fragment of [re] the program uses *)

Module Re.

(** Patterns: [^], a character class, a greedy repetition [c{lo,}] of a
    class ([c*] is [Rep c 0], [c+] is [Rep c 1]), sequence and
    alternation. *)
Inductive regex : Type :=
| Bol
| Cls (p : char -> bool)
| Rep (p : char -> bool) (lo : nat)
| Seq (a b : regex)
| Alt (a b : regex).

(** A backtracking matcher in continuation-passing style.  [pos] is the
    offset of [s] in the subject string; the continuation receives the
    offset and the text that are left.  Without [re.MULTILINE], [^] matches
    at offset 0 only.  A repetition tries the longest run first and gives
    characters back one at a time; an alternation tries its left branch
    first. *)
Section Matcher.
Variable R : Type.

Fixpoint rep_greedy (p : char -> bool) (lo : nat) (pos : nat) (s : pystr)
         (k : nat -> pystr -> option R) : option R :=
  let stop := match lo with O => k pos s | S _ => None end in
  match s with
  | [] => stop
  | c :: s' =>
    if p c then
      match rep_greedy p (Nat.pred lo) (S pos) s' k with
      | Some r => Some r
      | None => stop
      end
    else stop
  end.

Fixpoint exec (r : regex) (pos : nat) (s : pystr)
         (k : nat -> pystr -> option R) : option R :=
  match r with
  | Bol => match pos with O => k pos s | S _ => None end
  | Cls p =>
    match s with
    | [] => None
    | c :: s' => if p c then k (S pos) s' else None
    end
  | Rep p lo => rep_greedy p lo pos s k
  | Seq a b => exec a pos s (fun pos' s' => exec b pos' s' k)
  | Alt a b =>
    match exec a pos s k with
    | Some x => Some x
    | None => exec b pos s k
    end
  end.
End Matcher.

(** [pattern.match] at offset [pos]: the offset and the text after the
    match. *)
Definition match_at (r : regex) (pos : nat) (s : pystr)
  : option (nat * pystr) :=
  exec r pos s (fun pos' s' => Some (pos', s')).

(** [re.sub(r, repl, s)] for a replacement without group references: scan
    left to right, replace each match, copy the characters no match starts
    at.  An empty match is replaced and the scan moves one character on.
    Every round but the last consumes a character, so [length s + 1] rounds
    are enough. *)
Fixpoint sub_loop (fuel : nat) (r : regex) (repl : pystr) (pos : nat)
         (s : pystr) : pystr :=
  match fuel with
  | O => s
  | S fuel' =>
    match match_at r pos s with
    | Some (pos', rest) =>
      if Nat.ltb pos pos' then repl ++ sub_loop fuel' r repl pos' rest
      else
        match s with
        | [] => repl
        | c :: s' => repl ++ c :: sub_loop fuel' r repl (S pos) s'
        end
    | None =>
      match s with
      | [] => []
      | c :: s' => c :: sub_loop fuel' r repl (S pos) s'
      end
    end
  end.

Definition sub (r : regex) (repl : pystr) (s : pystr) : pystr :=
  sub_loop (S (List.length s)) r repl 0 s.

End Re.

(** ** The chat core of [app.py] *)

Module App.

Import Re.

(** *** [_denumerate] *)

Definition is_bullet (c : char) : bool := N.eqb c 0x2022 || N.eqb c 0x2D.

Definition is_marker_punct (c : char) : bool :=
  N.eqb c 0x2E || N.eqb c 0x29 || N.eqb c 0x2D || N.eqb c 0x3A.

Definition is_LF (c : char) : bool := N.eqb c LF.

(** [r'^\s*(?:\d+|[•\-])[\.)\-:]\s*'] *)
Definition marker_re : regex :=
  Seq Bol
    (Seq (Rep isspace 0)
       (Seq (Alt (Rep isdecimal 1) (Cls is_bullet))
          (Seq (Cls is_marker_punct) (Rep isspace 0)))).

(** [r'\n{3,}'] *)
Definition blank_run_re : regex := Rep is_LF 3.

Definition _denumerate (text : option pystr) : pystr :=
  let lines := splitlines (or_empty text) in
  let cleaned := List.map (fun ln => sub marker_re [] ln) lines in
  let out := strip (join [LF] cleaned) in
  sub blank_run_re [LF; LF] out.

(** *** [_clean] *)

Definition _clean (text : option pystr) (max_words : Z) : pystr :=
  let t := _denumerate text in
  let words := split t in
  if (Z.of_nat (List.length words) >? max_words)%Z
  then rstrip (join [SP] (slice_to words max_words)) ++ py "..."
  else t.

(** *** The fallback table *)

(** A [dict] literal with four distinct keys: iteration follows the order
    of the literal. *)
Definition _FALLBACK : list (list pystr * pystr) :=
  [ ([py "currículo"; py "curriculo"; py "cv"; py "resumo"],
     py "Use uma página com conquistas mensuráveis, destaque 3–5 projetos relevantes, organize tecnologias por nível e inclua links de GitHub e LinkedIn.");
    ([py "entrevista"; py "recrutador"; py "processo"],
     py "Pesquise a empresa, explique projetos com desafios e resultados, mostre aprendizados e leve perguntas objetivas para o final.");
    ([py "estágio"; py "estagio"; py "junior"; py "primeiro emprego"],
     py "Monte um portfólio simples, contribua em projetos abertos, participe de eventos, mantenha o LinkedIn ativo e envie candidaturas com regularidade.");
    ([py "conectati"; py "site"; py "cadastro"; py "contato"; py "o que é"; py "o que e"],
     py "Veja ‘O que é’ para entender a proposta, cadastre-se no topo, fale conosco pelo formulário e confira vagas na Home usando o e-mail do UniCEUB.") ].

Definition _DEFAULT_FALLBACK : pystr :=
  py "Explique seu objetivo e contexto, liste habilidades atuais e projetos, peça feedback específico e compartilhe links de GitHub e LinkedIn.".

(** *** Exceptions *)

(** A computation returns a value or raises an instance of [Exception]. *)
Inductive result (A : Type) : Type :=
| Return (a : A)
| Raise.
Arguments Raise {A}.

Definition bind (A B : Type) (m : result A) (f : A -> result B) : result B :=
  match m with
  | Return a => f a
  | Raise => Raise
  end.

(** [try: body  except Exception: handler] *)
Definition try_except (A : Type) (body handler : result A) : result A :=
  match body with
  | Return a => Return a
  | Raise => handler
  end.

(** The JSON responses of [/api/chat]. *)
Inductive response : Type :=
| Reply200 (reply : pystr)
| Error400 (error : pystr).

Section Chat.

(** [str.lower] follows the interpreter's Unicode case tables; the chat
    core only passes its result on to [in]. *)
Variable lower : pystr -> pystr.

(** *** [_fallback_reply] *)

Fixpoint fallback_loop (low : pystr) (rules : list (list pystr * pystr))
  : pystr :=
  match rules with
  | [] => _DEFAULT_FALLBACK
  | (keys, rep) :: rest =>
    if existsb (fun k => contains low k) keys then rep
    else fallback_loop low rest
  end.

Definition _fallback_reply (text : option pystr) : pystr :=
  let low := lower (or_empty text) in
  fallback_loop low _FALLBACK.

(** *** [api_chat] *)

Definition site_facts : pystr :=
  py "ConectaTI é plataforma acadêmica do UniCEUB. Páginas: Home, O que é, Cadastro e Contato. "
  ++ py "Na Home há trilhas e vagas em destaque. Cadastro pede nome, e-mail institucional e senha. "
  ++ py "Objetivo: ajudar estudantes a evoluírem em habilidades e portfólio.".

Definition triple_quote : pystr := [0x22; 0x22; 0x22]%N.

Definition prompt (user_message : pystr) : pystr :=
  [LF]
  ++ py "Você é consultor de carreira em TI e tira dúvidas sobre o site ConectaTI. Responda em PT-BR." ++ [LF]
  ++ py "Estilo: 1–2 parágrafos curtos (até ~120 palavras), sem listas e sem numeração. Vá direto ao ponto." ++ [LF]
  ++ py "Se a pergunta for ampla, encerre com UMA pergunta de clarificação." ++ [LF]
  ++ [LF]
  ++ py "Contexto do site:" ++ [LF]
  ++ site_facts ++ [LF]
  ++ [LF]
  ++ py "Pergunta do usuário:" ++ [LF]
  ++ triple_quote ++ user_message ++ triple_quote ++ [LF].

(** [_model] is [None] or the collaborator.  The collaborator is taken as
    what the handler sees of it: from the prompt (the generation
    parameters are constants) either [resp.text], which may be [None],
    or an exception, raised by [generate_content] or by reading the
    [text] attribute.  [message] is [data.get("message")]: a [str], or
    [None] when the field is absent. *)
Variable _model : option (pystr -> result (option pystr)).

Definition api_chat (message : option pystr) : result response :=
  let user_message := strip (or_empty message) in
  if is_empty user_message
  then Return (Error400 (py "Campo 'message' é obrigatório."))
  else
    match _model with
    | Some generate_content =>
      try_except
        (bind (generate_content (prompt user_message)) (fun text =>
           let reply := strip (or_empty text) in
           let reply :=
             if is_empty reply then _fallback_reply (Some user_message)
             else reply in
           let reply := _clean (Some reply) 120 in
           Return (Reply200 reply)))
        (Return (Reply200 (_fallback_reply (Some user_message))))
    | None => Return (Reply200 (_fallback_reply (Some user_message)))
    end.

End Chat.

End App.

Import App.

(** ** The rest of [app.py]: accounts, profiles, job listings, home cards

    The handlers read and write four JSON files and the session.  A handler
    is a function from the session and the stored state to a response, the
    new session and the new state.  The documents in the files are taken
    with the keys and value types this program writes (a file whose content
    does not parse is [Garbled]), and the fields of a form or of a JSON body
    are strings or absent. *)

Module Portal.

(** *** Dictionaries with string keys

    A [dict] keeps insertion order, which [json.dump] writes out, so it is an
    association list; assignment replaces the value of a key in place and
    appends a key that is new. *)

Fixpoint str_eqb (a b : pystr) : bool :=
  match a, b with
  | [], [] => true
  | x :: a', y :: b' => N.eqb x y && str_eqb a' b'
  | _, _ => false
  end.

Definition dict (V : Type) : Type := list (pystr * V).

Section Dict.
Variable V : Type.

(** [d.get(k)] *)
Fixpoint dict_get (d : dict V) (k : pystr) : option V :=
  match d with
  | [] => None
  | (k', v) :: rest => if str_eqb k' k then Some v else dict_get rest k
  end.

(** [k in d] *)
Definition dict_mem (d : dict V) (k : pystr) : bool :=
  match dict_get d k with
  | Some _ => true
  | None => false
  end.

(** [d[k] = v] *)
Fixpoint dict_set (d : dict V) (k : pystr) (v : V) : dict V :=
  match d with
  | [] => [(k, v)]
  | (k', v') :: rest =>
    if str_eqb k' k then (k', v) :: rest else (k', v') :: dict_set rest k v
  end.

(** [d.setdefault(k, v)] *)
Definition dict_setdefault (d : dict V) (k : pystr) (v : V) : dict V :=
  if dict_mem d k then d else dict_set d k v.

(** [{**a, **b}] *)
Definition dict_merge (a b : dict V) : dict V :=
  fold_left (fun acc kv => dict_set acc (fst kv) (snd kv)) b a.

End Dict.

(** [set] membership of a string. *)
Definition str_in (k : pystr) (l : list pystr) : bool := existsb (str_eqb k) l.

(** *** The documents *)

Record user : Type := {
  nome : pystr;
  senha_hash : pystr
}.

Record skill_levels : Type := {
  desenvolvimento : Z;
  banco_dados : Z;
  redes : Z;
  dados : Z;
  seguranca : Z;
  devops_cloud : Z
}.

Record profile : Type := {
  perfil_nome : pystr;
  perfil_email : pystr;
  area_alvo : pystr;
  objetivo : pystr;
  github : pystr;
  linkedin : pystr;
  cv_url : pystr;
  skills : skill_levels
}.

Record vaga : Type := {
  vaga_id : Z;
  titulo : pystr;
  empresa : pystr;
  url : pystr
}.

(** A home card is a dictionary with the keys "title" and "text". *)
Definition card : Type := dict pystr.

(** The document of [home.json]: its "cards" entry, when it has one. *)
Record home_doc : Type := {
  cards : option (dict card)
}.

(** *** Files *)

Inductive file (A : Type) : Type :=
| Absent
| Garbled
| Holds (content : A).
Arguments Absent {A}.
Arguments Garbled {A}.

Definition _load_json (A : Type) (f : file A) (default : A) : A :=
  match f with
  | Holds a => a
  | Absent | Garbled => default
  end.

(** The four files, and the cards of [DEFAULT_HOME]: a module-level
    dictionary whose inner dictionaries live as long as the process and are
    reachable from what [_load_home] returns. *)
Record store : Type := {
  USERS_JSON : file (dict user);
  PERFIS_JSON : file (dict profile);
  VAGAS_JSON : file (list vaga);
  HOME_JSON : file home_doc;
  DEFAULT_HOME : dict card
}.

Definition _load_users (st : store) : dict user := _load_json (USERS_JSON st) [].

Definition _save_users (st : store) (d : dict user) : store :=
  {| USERS_JSON := Holds d; PERFIS_JSON := PERFIS_JSON st;
     VAGAS_JSON := VAGAS_JSON st; HOME_JSON := HOME_JSON st;
     DEFAULT_HOME := DEFAULT_HOME st |}.

Definition _load_profiles (st : store) : dict profile :=
  _load_json (PERFIS_JSON st) [].

Definition _save_profiles (st : store) (d : dict profile) : store :=
  {| USERS_JSON := USERS_JSON st; PERFIS_JSON := Holds d;
     VAGAS_JSON := VAGAS_JSON st; HOME_JSON := HOME_JSON st;
     DEFAULT_HOME := DEFAULT_HOME st |}.

Definition _load_vagas (st : store) : list vaga := _load_json (VAGAS_JSON st) [].

Definition _save_vagas (st : store) (lst : list vaga) : store :=
  {| USERS_JSON := USERS_JSON st; PERFIS_JSON := PERFIS_JSON st;
     VAGAS_JSON := Holds lst; HOME_JSON := HOME_JSON st;
     DEFAULT_HOME := DEFAULT_HOME st |}.

(** [max([v["id"] for v in vagas], default=0) + 1] *)
Definition _next_id (vagas : list vaga) : Z :=
  match List.map vaga_id vagas with
  | [] => 0 + 1
  | i :: ids => fold_left Z.max ids i + 1
  end.

(** *** Home cards *)

Definition DEFAULT_HOME_cards : dict card :=
  [ (py "vagas",
     [ (py "title", py "Vagas & Estágios");
       (py "text", py "Oportunidades reais com empresas parceiras e startups da região.") ]);
    (py "projetos",
     [ (py "title", py "Projetos & Desafios");
       (py "text", py "Prática guiada para fortalecer seu portfólio e habilidade técnica.") ]);
    (py "eventos",
     [ (py "title", py "Eventos & Comunidade");
       (py "text", py "Meetups, talks e hackathons para ampliar seu networking.") ]) ].

(** A value of the merged "cards" dictionary is one of the inner
    dictionaries of [DEFAULT_HOME] itself, or a dictionary just read from
    the file. *)
Inductive card_ref : Type :=
| Shared (key : pystr)
| Fresh (c : card).

Definition deref (st : store) (r : card_ref) : card :=
  match r with
  | Shared k =>
    match dict_get (DEFAULT_HOME st) k with
    | Some c => c
    | None => []
    end
  | Fresh c => c
  end.

(** [data.get("cards", {})] for the document loaded from [home.json], the
    default document being [{}]. *)
Definition file_cards (st : store) : dict card :=
  let data := _load_json (HOME_JSON st) {| cards := None |} in
  match cards data with
  | Some d => d
  | None => []
  end.

(** [out["cards"] = {**DEFAULT_HOME["cards"], **data.get("cards", {})}] *)
Definition _load_home (st : store) : dict card_ref :=
  dict_merge
    (List.map (fun kv => (fst kv, Shared (fst kv))) (DEFAULT_HOME st))
    (List.map (fun kv => (fst kv, Fresh (snd kv))) (file_cards st)).

(** What [json.dump] writes for the merged dictionary. *)
Definition home_values (st : store) (home : dict card_ref) : dict card :=
  List.map (fun kv => (fst kv, deref st (snd kv))) home.

Definition _save_home (st : store) (home : dict card_ref) : store :=
  {| USERS_JSON := USERS_JSON st; PERFIS_JSON := PERFIS_JSON st;
     VAGAS_JSON := VAGAS_JSON st;
     HOME_JSON := Holds {| cards := Some (home_values st home) |};
     DEFAULT_HOME := DEFAULT_HOME st |}.

Definition set_DEFAULT_HOME (st : store) (d : dict card) : store :=
  {| USERS_JSON := USERS_JSON st; PERFIS_JSON := PERFIS_JSON st;
     VAGAS_JSON := VAGAS_JSON st; HOME_JSON := HOME_JSON st;
     DEFAULT_HOME := d |}.

(** [home["cards"][section][field] = value]: through a shared reference the
    assignment lands in [DEFAULT_HOME]. *)
Definition assign_card (st : store) (home : dict card_ref) (section : pystr)
           (field value : pystr) : option (store * dict card_ref) :=
  match dict_get home section with
  | None => None
  | Some (Shared k) =>
    Some (set_DEFAULT_HOME st
            (dict_set (DEFAULT_HOME st) k
                      (dict_set (deref st (Shared k)) field value)),
          home)
  | Some (Fresh c) =>
    Some (st, dict_set home section (Fresh (dict_set c field value)))
  end.

(** *** Session, requests, responses *)

Record session : Type := {
  user_email : option pystr;
  is_admin : option bool;
  _flashes : list (pystr * pystr)
}.

(** [flash(message, category)] *)
Definition flash (s : session) (message category : pystr) : session :=
  {| user_email := user_email s; is_admin := is_admin s;
     _flashes := _flashes s ++ [(category, message)] |}.

Definition sign_in (s : session) (email : pystr) (admin : bool) : session :=
  {| user_email := Some email; is_admin := Some admin;
     _flashes := _flashes s |}.

Definition sign_out (s : session) : session :=
  {| user_email := None; is_admin := None; _flashes := _flashes s |}.

(** Truthiness of [session.get("user_email")] and of
    [session.get("is_admin")]. *)
Definition logged_in (s : session) : bool :=
  negb (is_empty (or_empty (user_email s))).

Definition admin (s : session) : bool :=
  match is_admin s with
  | Some b => b
  | None => false
  end.

Inductive http_method : Type := GET | POST.

Inductive location : Type :=
| ToLogin (next : option pystr)
| ToCadastro
| ToPerfil
| ToHome
| ToUrl (target : pystr).

(** The context of [perfil.html]: the stored profile, or the dictionary the
    handler builds when there is none. *)
Inductive perfil_context : Type :=
| StoredProfile (p : profile)
| BlankProfile (email : pystr) (sk : skill_levels).

Inductive page : Type :=
| CadastroHtml
| LoginHtml
| OQueEHtml
| IndexHtml (vagas : list vaga) (home : dict card) (is_admin : bool)
| PerfilHtml (perfil : perfil_context) (current_email : pystr).

Inductive json : Type :=
| JError (error : pystr)
| JVaga (v : vaga)
| JVagas (l : list vaga)
| JOk
| JHome (section : pystr) (data : card).

(** [Uncaught] is an exception that leaves the handler. *)
Inductive response : Type :=
| Redirect (to : location)
| Html (p : page)
| Json (status : N) (j : json)
| Uncaught.

Definition outcome : Type := (response * session * store)%type.

(** What the handlers take from the platform: [str.lower], the set
    [ADMIN_EMAILS] read from the environment at start-up, the two password
    functions of werkzeug (hashing draws a salt) and [int] on strings. *)
Record platform : Type := {
  lower : pystr -> pystr;
  ADMIN_EMAILS : list pystr;
  generate_password_hash : pystr -> pystr -> pystr;
  check_password_hash : pystr -> pystr -> bool;
  int_of_str : pystr -> option Z
}.

Definition field (form : dict pystr) (name : string) : pystr :=
  strip (or_empty (dict_get form (py name))).

(** *** Guards *)

Definition login_required (path : pystr)
           (view : session -> store -> outcome)
           (s : session) (st : store) : outcome :=
  if negb (logged_in s)
  then (Redirect (ToLogin (Some path)),
        flash s (py "Faça login para acessar esta página.") (py "message"),
        st)
  else view s st.

Definition admin_required (path : pystr)
           (view : session -> store -> outcome)
           (s : session) (st : store) : outcome :=
  if negb (logged_in s)
  then (Redirect (ToLogin (Some path)),
        flash s (py "Faça login para acessar.") (py "err"), st)
  else if negb (admin s)
  then (Json 403 (JError (py "Acesso restrito ao admin.")), s, st)
  else view s st.

Section Handlers.

Variable rt : platform.

(** *** Accounts *)

Definition blank_skills : skill_levels :=
  {| desenvolvimento := 0; banco_dados := 0; redes := 0;
     dados := 0; seguranca := 0; devops_cloud := 0 |}.

Definition cadastro (method : http_method) (form : dict pystr)
           (salt : pystr) (s : session) (st : store) : outcome :=
  match method with
  | POST =>
    let nome := field form "nome" in
    let email := lower rt (field form "email") in
    let senha := field form "senha" in
    if is_empty nome || is_empty email || is_empty senha
    then (Redirect ToCadastro,
          flash s (py "Preencha nome, e-mail e senha.") (py "message"), st)
    else if Nat.ltb (List.length senha) 6
    then (Redirect ToCadastro,
          flash s (py "A senha deve ter pelo menos 6 caracteres.")
                (py "message"), st)
    else
      let users := _load_users st in
      if dict_mem users email
      then (Redirect (ToLogin None),
            flash s (py "E-mail já cadastrado. Faça login.") (py "message"),
            st)
      else
        let users :=
          dict_set users email
                   {| nome := nome;
                      senha_hash := generate_password_hash rt senha salt |} in
        let st := _save_users st users in
        let perfis := _load_profiles st in
        let perfis :=
          dict_setdefault perfis email
            {| perfil_nome := nome; perfil_email := email;
               area_alvo := []; objetivo := []; github := [];
               linkedin := []; cv_url := []; skills := blank_skills |} in
        let st := _save_profiles st perfis in
        let s := sign_in s email (str_in email (ADMIN_EMAILS rt)) in
        let s := flash s (py "Cadastro concluído! Bem-vindo(a).")
                       (py "message") in
        (Redirect ToPerfil, s, st)
  | GET => (Html CadastroHtml, s, st)
  end.

Definition login (method : http_method) (form : dict pystr)
           (next : option pystr) (s : session) (st : store) : outcome :=
  match method with
  | POST =>
    let email := lower rt (field form "email") in
    let senha := field form "senha" in
    if is_empty email || is_empty senha
    then (Redirect (ToLogin None),
          flash s (py "Informe e-mail e senha.") (py "message"), st)
    else
      let users := _load_users st in
      let ok :=
        match dict_get users email with
        | Some u => check_password_hash rt (senha_hash u) senha
        | None => false
        end in
      if negb ok
      then (Redirect (ToLogin None),
            flash s (py "E-mail ou senha inválidos.") (py "message"), st)
      else
        let s := sign_in s email (str_in email (ADMIN_EMAILS rt)) in
        let s := flash s (py "Login efetuado!") (py "message") in
        (Redirect (if is_empty (or_empty next) then ToPerfil
                   else ToUrl (or_empty next)), s, st)
  | GET => (Html LoginHtml, s, st)
  end.

Definition logout (s : session) (st : store) : outcome :=
  (Redirect ToHome,
   flash (sign_out s) (py "Você saiu da sua conta.") (py "message"), st).

(** *** Pages *)

Definition home (s : session) (st : store) : outcome :=
  let vagas := _load_vagas st in
  let home_content := _load_home st in
  (Html (IndexHtml vagas (home_values st home_content) (admin s)), s, st).

Definition o_que_e (s : session) (st : store) : outcome :=
  (Html OQueEHtml, s, st).

(** *** Profile *)

(** [int(v)] raises on [None] and on text that is no integer; both end in
    the [except] branch. *)
Definition _to_int (v : option pystr) : Z :=
  match v with
  | None => 0
  | Some text =>
    match int_of_str rt text with
    | Some n => if (n <? 0)%Z then 0 else if (n >? 100)%Z then 100 else n
    | None => 0
    end
  end.

Definition perfil_view (method : http_method) (form : dict pystr)
           (s : session) (st : store) : outcome :=
  let perfis := _load_profiles st in
  match user_email s with
  | None => (Uncaught, s, st)
  | Some email =>
    match method with
    | POST =>
      let sk :=
        {| desenvolvimento := _to_int (dict_get form (py "sk_dev"));
           banco_dados := _to_int (dict_get form (py "sk_db"));
           redes := _to_int (dict_get form (py "sk_net"));
           dados := _to_int (dict_get form (py "sk_data"));
           seguranca := _to_int (dict_get form (py "sk_sec"));
           devops_cloud := _to_int (dict_get form (py "sk_devops")) |} in
      let perfis :=
        dict_set perfis email
          {| perfil_nome := field form "nome"; perfil_email := email;
             area_alvo := field form "area_alvo";
             objetivo := field form "objetivo";
             github := field form "github";
             linkedin := field form "linkedin";
             cv_url := field form "cv_url"; skills := sk |} in
      let st := _save_profiles st perfis in
      (Redirect ToPerfil,
       flash s (py "Perfil salvo com sucesso!") (py "message"), st)
    | GET =>
      let perfil :=
        match dict_get perfis email with
        | Some p => StoredProfile p
        | None => BlankProfile email blank_skills
        end in
      (Html (PerfilHtml perfil email), s, st)
    end
  end.

Definition perfil (path : pystr) (method : http_method) (form : dict pystr)
  : session -> store -> outcome :=
  login_required path (perfil_view method form).

(** *** Job listings *)

Definition api_vagas_public (s : session) (st : store) : outcome :=
  (Json 200 (JVagas (_load_vagas st)), s, st).

Definition json_body (body : option (dict pystr)) : dict pystr :=
  match body with
  | Some d => d
  | None => []
  end.

Definition api_vagas_create_view (body : option (dict pystr))
           (s : session) (st : store) : outcome :=
  let data := json_body body in
  let titulo := field data "titulo" in
  let empresa := field data "empresa" in
  let url := field data "url" in
  if is_empty titulo || is_empty empresa
  then (Json 400 (JError (py "Informe título e empresa.")), s, st)
  else
    let vagas := _load_vagas st in
    let vaga := {| vaga_id := _next_id vagas; titulo := titulo;
                   empresa := empresa; url := url |} in
    let vagas := vagas ++ [vaga] in
    (Json 201 (JVaga vaga), s, _save_vagas st vagas).

Definition api_vagas_create (path : pystr) (body : option (dict pystr))
  : session -> store -> outcome :=
  admin_required path (api_vagas_create_view body).

(** [x or default] for a string [x] that may be absent, then [.strip()]. *)
Definition or_else (x : option pystr) (default : pystr) : pystr :=
  if is_empty (or_empty x) then default else or_empty x.

(** The loop of [api_vagas_update]: the first listing with the id is
    changed in place; the result is the listing as changed and the list. *)
Fixpoint update_first (data : dict pystr) (vid : Z) (vagas : list vaga)
  : option (vaga * list vaga) :=
  match vagas with
  | [] => None
  | v :: rest =>
    if (vaga_id v =? vid)%Z
    then
      let v' :=
        {| vaga_id := vaga_id v;
           titulo := strip (or_else (dict_get data (py "titulo")) (titulo v));
           empresa :=
             strip (or_else (dict_get data (py "empresa")) (empresa v));
           url := strip (or_else (dict_get data (py "url")) (url v)) |} in
      Some (v', v' :: rest)
    else
      match update_first data vid rest with
      | Some (v', rest') => Some (v', v :: rest')
      | None => None
      end
  end.

Definition api_vagas_update_view (vid : Z) (body : option (dict pystr))
           (s : session) (st : store) : outcome :=
  let data := json_body body in
  let vagas := _load_vagas st in
  match update_first data vid vagas with
  | Some (v, vagas') => (Json 200 (JVaga v), s, _save_vagas st vagas')
  | None => (Json 404 (JError (py "Vaga não encontrada.")), s, st)
  end.

Definition api_vagas_update (path : pystr) (vid : Z)
           (body : option (dict pystr)) : session -> store -> outcome :=
  admin_required path (api_vagas_update_view vid body).

Definition api_vagas_delete_view (vid : Z) (s : session) (st : store)
  : outcome :=
  let vagas := _load_vagas st in
  let new := List.filter (fun v => negb (vaga_id v =? vid)%Z) vagas in
  if Nat.eqb (List.length new) (List.length vagas)
  then (Json 404 (JError (py "Vaga não encontrada.")), s, st)
  else (Json 200 JOk, s, _save_vagas st new).

Definition api_vagas_delete (path : pystr) (vid : Z)
  : session -> store -> outcome :=
  admin_required path (api_vagas_delete_view vid).

(** *** Home content *)

Definition api_home_update_view (section : pystr)
           (body : option (dict pystr)) (s : session) (st : store)
  : outcome :=
  let section := lower rt section in
  if negb (str_in section [py "vagas"; py "projetos"; py "eventos"])
  then (Json 400 (JError (py "Seção inválida.")), s, st)
  else
    let data := json_body body in
    let title := field data "title" in
    let text := field data "text" in
    if is_empty title || is_empty text
    then (Json 400 (JError (py "Informe título e texto.")), s, st)
    else
      let home := _load_home st in
      match assign_card st home section (py "title") title with
      | None => (Uncaught, s, st)
      | Some (st1, home1) =>
        match assign_card st1 home1 section (py "text") text with
        | None => (Uncaught, s, st1)
        | Some (st2, home2) =>
          let st3 := _save_home st2 home2 in
          match dict_get home2 section with
          | None => (Uncaught, s, st3)
          | Some r => (Json 200 (JHome section (deref st3 r)), s, st3)
          end
        end
      end.

Definition api_home_update (path : pystr) (section : pystr)
           (body : option (dict pystr)) : session -> store -> outcome :=
  admin_required path (api_home_update_view section body).

End Handlers.

(** Every skill level is a percentage. *)
Definition skills_in_range (sk : skill_levels) : Prop :=
  (0 <= desenvolvimento sk <= 100 /\ 0 <= banco_dados sk <= 100
   /\ 0 <= redes sk <= 100 /\ 0 <= dados sk <= 100
   /\ 0 <= seguranca sk <= 100 /\ 0 <= devops_cloud sk <= 100)%Z.

(** [DEFAULT_HOME] has its three sections. *)
Definition default_sections (st : store) : Prop :=
  List.map fst (DEFAULT_HOME st) = [py "vagas"; py "projetos"; py "eventos"].

(** The cards as the home page gets them. *)
Definition home_cards (st : store) : dict card :=
  home_values st (_load_home st).

(** The three parts of an outcome. *)
Definition resp_of (o : outcome) : response := fst (fst o).
Definition session_of (o : outcome) : session := snd (fst o).
Definition store_of (o : outcome) : store := snd o.

(** The state of a fresh installation: no file yet, [DEFAULT_HOME] as the
    module defines it. *)
Definition initial_store : store :=
  {| USERS_JSON := Absent; PERFIS_JSON := Absent; VAGAS_JSON := Absent;
     HOME_JSON := Absent; DEFAULT_HOME := DEFAULT_HOME_cards |}.

Definition anonymous : session :=
  {| user_email := None; is_admin := None; _flashes := [] |}.

End Portal.

(** Values the examples run on. *)
Module Sample.

Import Portal.

Definition ascii_lower (c : char) : char :=
  if (N.leb 0x41 c && N.leb c 0x5A)%bool then (c + 0x20)%N else c.

(** A platform for running examples: lowercasing of ASCII letters, one
    administrator, a toy hash that writes the salt after the password,
    decimal [int] of one or two ASCII digits. *)
Definition toy : platform :=
  {| lower := List.map ascii_lower;
     ADMIN_EMAILS := [py "ana@uniceub.br"];
     generate_password_hash := fun pw salt => pw ++ py "$" ++ salt;
     check_password_hash := fun h pw => startswith h (pw ++ py "$");
     int_of_str :=
       fun t =>
         match t with
         | [a] =>
           if isdecimal a && N.leb a 0x39 then Some (Z.of_N (a - 0x30))
           else None
         | [a; b] =>
           if isdecimal a && N.leb a 0x39 && isdecimal b && N.leb b 0x39
           then Some (Z.of_N ((a - 0x30) * 10 + (b - 0x30)))
           else None
         | _ => None
         end |}.

Definition ana : session :=
  {| user_email := Some (py "ana@uniceub.br"); is_admin := Some true;
     _flashes := [] |}.

Definition bia : session :=
  {| user_email := Some (py "bia@uniceub.br"); is_admin := Some false;
     _flashes := [] |}.

Definition two_vagas : list vaga :=
  [ {| vaga_id := 1; titulo := py "Dev"; empresa := py "Acme";
       url := [] |};
    {| vaga_id := 4; titulo := py "QA"; empresa := py "Beta";
       url := py "http://b" |} ].

Definition with_vagas : store :=
  _save_vagas initial_store two_vagas.

Definition vaga_body (t e : string) : option (dict pystr) :=
  Some [(py "titulo", py t); (py "empresa", py e)].

Definition form_of (l : list (string * string)) : dict pystr :=
  List.map (fun kv => (py (fst kv), py (snd kv))) l.

Definition bia_form : dict pystr :=
  form_of [("nome", "Bia"); ("email", " Bia@UniCEUB.br ");
           ("senha", "segredo1")]%string.

End Sample.

(** ** Reference functions the proofs compare the program with *)

Module Ref.

(** Number of leading characters of [s] in the class [p]. *)
Fixpoint run_len (p : char -> bool) (s : pystr) : nat :=
  match s with
  | [] => 0
  | c :: s' => if p c then S (run_len p s') else 0
  end.

(** What [marker_re] leaves of a line it matches: skip whitespace, then a
    run of digits or one bullet glyph, then one punctuation character, then
    whitespace. *)
Definition after_head (s : pystr) : option pystr :=
  match s with
  | [] => None
  | c :: s' =>
    if isdecimal c then Some (drop_while isdecimal s')
    else if is_bullet c then Some s' else None
  end.

Definition after_punct (s : pystr) : option pystr :=
  match s with
  | [] => None
  | c :: s' =>
    if is_marker_punct c then Some (drop_while isspace s') else None
  end.

Definition lead_marker (ln : pystr) : option pystr :=
  match after_head (drop_while isspace ln) with
  | Some s => after_punct s
  | None => None
  end.

(** The shape of one enumeration marker. *)
Definition is_marker (m : pystr) : Prop :=
  exists ws0 hd p ws1,
    m = ws0 ++ hd ++ p :: ws1
    /\ forallb isspace ws0 = true
    /\ ((hd <> [] /\ forallb isdecimal hd = true)
        \/ (exists b, hd = [b] /\ is_bullet b = true))
    /\ is_marker_punct p = true
    /\ forallb isspace ws1 = true.

(** Blank-line collapsing read as one pass: [seen] line feeds have just
    gone by, and a line feed is kept while fewer than two have. *)
Fixpoint squeeze (seen : nat) (s : pystr) : pystr :=
  match s with
  | [] => []
  | c :: s' =>
    if is_LF c
    then if Nat.ltb seen 2 then c :: squeeze (S seen) s'
         else squeeze (S seen) s'
    else c :: squeeze 0 s'
  end.

(** [k] occurs in [s]. *)
Definition occurs_in (k s : pystr) : Prop :=
  exists pre post, s = pre ++ k ++ post.

Definition nonspace (c : char) : bool := negb (isspace c).

(** A word: not empty, no whitespace in it. *)
Definition is_word (w : pystr) : Prop :=
  w <> [] /\ forallb nonspace w = true.

(** The first character of [s] is in the class [p]. *)
Definition head_in (p : char -> bool) (s : pystr) : bool :=
  match s with
  | c :: _ => p c
  | [] => false
  end.

Definition last_in (p : char -> bool) (s : pystr) : bool :=
  head_in p (rev s).

(** The two tails of [marker_re]. *)
Definition punct_tail : Re.regex :=
  Re.Seq (Re.Cls is_marker_punct) (Re.Rep isspace 0).

Definition head_tail : Re.regex :=
  Re.Seq (Re.Alt (Re.Rep isdecimal 1) (Re.Cls is_bullet)) punct_tail.

(** All line boundaries of [s] are line feeds. *)
Definition only_LF (s : pystr) : Prop :=
  forall c, In c s -> islinebreak c = true -> c = LF.

(** What [_denumerate] leaves: line feeds as the only line boundaries, no
    whitespace at either end, no blank run left to collapse. *)
Definition clean_shape (y : pystr) : Prop :=
  only_LF y /\ head_in isspace y = false /\ last_in isspace y = false
  /\ squeeze 0 y = y.

(** The ellipsis [_clean] appends. *)
Definition dots : pystr := py "...".

(** Some keyword of the rule occurs in the lowercased text. *)
Definition hit (low : pystr) (keys : list pystr) : Prop :=
  exists k, In k keys /\ occurs_in k low.

(** No character of the line is a line boundary. *)
Definition unbroken (l : pystr) : Prop :=
  forallb (fun c => negb (islinebreak c)) l = true.

End Ref.

Import Ref.

(** ** Character classes *)

Section Classes.

Lemma isspace_cases c :
  isspace c = true ->
  (9 <= c <= 13 \/ 28 <= c <= 32 \/ c = 0x85 \/ c = 0xA0 \/ c = 0x1680
   \/ 0x2000 <= c <= 0x200A \/ c = 0x2028 \/ c = 0x2029 \/ c = 0x202F
   \/ c = 0x205F \/ c = 0x3000)%N.
Proof.
  unfold isspace.
  rewrite !orb_true_iff, !andb_true_iff, !N.leb_le, !N.eqb_eq.
  lia.
Qed.

Lemma isdecimal_block c :
  isdecimal c = true ->
  exists a n, In (a, n) decimal_blocks /\ (a <= c < a + n)%N.
Proof.
  unfold isdecimal. intros H.
  apply existsb_exists in H. destruct H as [[a n] [Hin Hb]].
  unfold in_block in Hb. simpl in Hb.
  apply andb_true_iff in Hb. destruct Hb as [H1 H2].
  apply N.leb_le in H1. apply N.ltb_lt in H2.
  exists a, n. auto.
Qed.

Lemma isdecimal_not_space c : isdecimal c = true -> isspace c = false.
Proof.
  intros H. destruct (isspace c) eqn:E; [exfalso | reflexivity].
  apply isspace_cases in E.
  apply isdecimal_block in H. destruct H as (a & n & Hin & Hr).
  unfold decimal_blocks in Hin.
  repeat (destruct Hin as [Hin | Hin];
          [injection Hin as <- <-; lia | ]).
  destruct Hin.
Qed.

Lemma isdecimal_ge c : isdecimal c = true -> (0x30 <= c)%N.
Proof.
  intros H. apply isdecimal_block in H. destruct H as (a & n & Hin & Hr).
  unfold decimal_blocks in Hin.
  repeat (destruct Hin as [Hin | Hin];
          [injection Hin as <- <-; lia | ]).
  destruct Hin.
Qed.

Lemma isdecimal_not_colon c : isdecimal c = true -> c <> 0x3A%N.
Proof.
  intros H. apply isdecimal_block in H. destruct H as (a & n & Hin & Hr).
  unfold decimal_blocks in Hin.
  repeat (destruct Hin as [Hin | Hin];
          [injection Hin as <- <-; lia | ]).
  destruct Hin.
Qed.

Lemma isdecimal_not_punct c :
  isdecimal c = true -> is_marker_punct c = false.
Proof.
  intros H. pose proof (isdecimal_ge _ H). pose proof (isdecimal_not_colon H).
  unfold is_marker_punct.
  rewrite !orb_false_iff, !N.eqb_neq. lia.
Qed.

Lemma isdecimal_not_bullet c : isdecimal c = true -> is_bullet c = false.
Proof.
  intros H. destruct (is_bullet c) eqn:E; [exfalso | reflexivity].
  unfold is_bullet in E. rewrite orb_true_iff, !N.eqb_eq in E.
  destruct E as [-> | ->]; vm_compute in H; discriminate.
Qed.

Lemma isspace_not_decimal c : isspace c = true -> isdecimal c = false.
Proof.
  intros H. destruct (isdecimal c) eqn:E; [ | reflexivity].
  apply isdecimal_not_space in E. congruence.
Qed.

Lemma isspace_not_bullet c : isspace c = true -> is_bullet c = false.
Proof.
  intros H. apply isspace_cases in H.
  unfold is_bullet. rewrite orb_false_iff, !N.eqb_neq. lia.
Qed.

Lemma islinebreak_isspace c : islinebreak c = true -> isspace c = true.
Proof.
  unfold islinebreak, isspace.
  rewrite !orb_true_iff, !andb_true_iff, !N.leb_le, !N.eqb_eq.
  lia.
Qed.

Lemma is_LF_eq c : is_LF c = true <-> c = LF.
Proof. unfold is_LF. apply N.eqb_eq. Qed.

Lemma is_LF_isspace c : is_LF c = true -> isspace c = true.
Proof. intros H. apply is_LF_eq in H. subst. reflexivity. Qed.

End Classes.

(** ** Runs of a character class *)

Section Runs.

Variable p : char -> bool.

Lemma run_len_drop_while s :
  run_len p s + List.length (drop_while p s) = List.length s.
Proof.
  induction s as [ | c s IH]; simpl; [reflexivity | ].
  destruct (p c); simpl; lia.
Qed.

Lemma drop_while_split s :
  exists r, s = r ++ drop_while p s /\ forallb p r = true.
Proof.
  induction s as [ | c s IH]; simpl.
  - exists []. auto.
  - destruct (p c) eqn:E.
    + destruct IH as (r & Hr & Hp). exists (c :: r). simpl.
      rewrite E, Hp. split; [f_equal; exact Hr | reflexivity].
    + exists []. auto.
Qed.

Lemma drop_while_app r s :
  forallb p r = true -> head_in p s = false -> drop_while p (r ++ s) = s.
Proof.
  intros Hr Hs. induction r as [ | c r IH]; simpl in *.
  - destruct s as [ | d s]; simpl in *; [reflexivity | now rewrite Hs].
  - apply andb_true_iff in Hr. destruct Hr as [Hc Hr]. rewrite Hc. auto.
Qed.

Lemma drop_while_head s : head_in p (drop_while p s) = false.
Proof.
  induction s as [ | c s IH]; simpl; [reflexivity | ].
  destruct (p c) eqn:E; simpl; auto.
Qed.

Lemma drop_while_id s : head_in p s = false -> drop_while p s = s.
Proof. intros H. apply (drop_while_app [] s); auto. Qed.

Lemma run_len_app r s :
  forallb p r = true -> head_in p s = false ->
  run_len p (r ++ s) = List.length r.
Proof.
  intros Hr Hs. induction r as [ | c r IH]; simpl in *.
  - destruct s as [ | d s]; simpl in *; [reflexivity | now rewrite Hs].
  - apply andb_true_iff in Hr. destruct Hr as [Hc Hr]. rewrite Hc. auto.
Qed.

End Runs.

(** ** The matcher on the two patterns of [_denumerate] *)

Section Matching.

Import Re.

Variable R : Type.

(** A greedy repetition takes the whole run when the continuation cannot
    start inside it. *)
Lemma rep_greedy_run (p : char -> bool) (k : nat -> pystr -> option R) :
  (forall pos c s, p c = true -> k pos (c :: s) = None) ->
  forall s lo pos,
    rep_greedy p lo pos s k =
    if Nat.leb lo (run_len p s)
    then k (pos + run_len p s) (drop_while p s) else None.
Proof.
  intros Hk. induction s as [ | c s IH]; intros lo pos; simpl.
  - destruct lo; simpl; [now rewrite Nat.add_0_r | reflexivity].
  - destruct (p c) eqn:E.
    + rewrite IH, Nat.add_succ_comm.
      destruct lo as [ | lo]; cbn [Nat.pred Nat.leb].
      * destruct (k (pos + S (run_len p s)) (drop_while p s)); auto.
      * destruct (Nat.leb lo (run_len p s)); auto.
        destruct (k (pos + S (run_len p s)) (drop_while p s)); auto.
    + destruct lo; simpl; [now rewrite Nat.add_0_r | reflexivity].
Qed.

(** ... and also when the continuation never fails. *)
Lemma rep_greedy_total (p : char -> bool) (k : nat -> pystr -> option R) :
  (forall pos s, k pos s <> None) ->
  forall s lo pos,
    rep_greedy p lo pos s k =
    if Nat.leb lo (run_len p s)
    then k (pos + run_len p s) (drop_while p s) else None.
Proof.
  intros Hk. induction s as [ | c s IH]; intros lo pos; simpl.
  - destruct lo; simpl; [now rewrite Nat.add_0_r | reflexivity].
  - destruct (p c) eqn:E.
    + rewrite IH, Nat.add_succ_comm.
      destruct lo as [ | lo]; cbn [Nat.pred Nat.leb].
      * destruct (k (pos + S (run_len p s)) (drop_while p s)) eqn:F; auto.
        now apply Hk in F.
      * destruct (Nat.leb lo (run_len p s)); auto.
        destruct (k (pos + S (run_len p s)) (drop_while p s)) eqn:F; auto.
    + destruct lo; simpl; [now rewrite Nat.add_0_r | reflexivity].
Qed.

End Matching.

Section MarkerPattern.

Import Re.

Let K : nat -> pystr -> option (nat * pystr) := fun a b => Some (a, b).

Lemma exec_punct_tail pos s :
  exec punct_tail pos s K =
  match after_punct s with
  | Some rest => Some (S pos + run_len isspace (List.tl s), rest)
  | None => None
  end.
Proof.
  destruct s as [ | c s]; simpl; [reflexivity | ].
  destruct (is_marker_punct c); [ | reflexivity].
  rewrite rep_greedy_total by (unfold K; discriminate).
  reflexivity.
Qed.

Lemma exec_punct_tail_decimal pos c s :
  isdecimal c = true -> exec punct_tail pos (c :: s) K = None.
Proof.
  intros H. simpl. now rewrite (isdecimal_not_punct _ H).
Qed.

Lemma exec_head_tail pos s :
  exists n,
    exec head_tail pos s K =
    match after_head s with
    | Some s1 =>
      match after_punct s1 with
      | Some rest => Some (S n, rest)
      | None => None
      end
    | None => None
    end.
Proof.
  unfold head_tail.
  change (exec (Seq (Alt (Rep isdecimal 1) (Cls is_bullet)) punct_tail)
               pos s K)
    with (match rep_greedy isdecimal 1 pos s
                  (fun a b => exec punct_tail a b K) with
          | Some x => Some x
          | None =>
            exec (Cls is_bullet) pos s (fun a b => exec punct_tail a b K)
          end).
  rewrite rep_greedy_run
    by (intros; now apply exec_punct_tail_decimal).
  destruct s as [ | c s]; simpl run_len; simpl drop_while.
  - exists 0. reflexivity.
  - unfold after_head. destruct (isdecimal c) eqn:E.
    + cbn [Nat.leb]. rewrite exec_punct_tail.
      eexists. destruct (after_punct (drop_while isdecimal s)).
      * reflexivity.
      * simpl. rewrite (isdecimal_not_bullet _ E). reflexivity.
    + cbn [Nat.leb]. cbn [exec]. destruct (is_bullet c).
      * rewrite exec_punct_tail. eexists. reflexivity.
      * exists 0. reflexivity.
Qed.

Lemma exec_head_tail_space pos c s :
  isspace c = true -> exec head_tail pos (c :: s) K = None.
Proof.
  intros H. destruct (exec_head_tail pos (c :: s)) as [n Hn].
  rewrite Hn. simpl.
  now rewrite (isspace_not_decimal _ H), (isspace_not_bullet _ H).
Qed.

(** The pattern matches a line exactly when [lead_marker] finds a marker,
    and the match is never empty. *)
Lemma match_marker ln :
  exists n,
    match_at marker_re 0 ln =
    match lead_marker ln with
    | Some rest => Some (S n, rest)
    | None => None
    end.
Proof.
  unfold match_at, marker_re. fold punct_tail. fold head_tail. fold K.
  change (exec (Seq Bol (Seq (Rep isspace 0) head_tail)) 0 ln K)
    with (rep_greedy isspace 0 0 ln (fun a b => exec head_tail a b K)).
  rewrite rep_greedy_run
    by (intros; now apply exec_head_tail_space).
  cbn [Nat.leb].
  destruct (exec_head_tail (0 + run_len isspace ln)
                           (drop_while isspace ln)) as [n Hn].
  exists n. rewrite Hn. unfold lead_marker.
  destruct (after_head (drop_while isspace ln)); reflexivity.
Qed.

Lemma match_marker_past_start pos s : match_at marker_re (S pos) s = None.
Proof. reflexivity. Qed.

Lemma sub_loop_marker_past_start fuel :
  forall pos s, sub_loop fuel marker_re [] (S pos) s = s.
Proof.
  induction fuel as [ | fuel IH]; intros pos s; [reflexivity | ].
  cbn [sub_loop]. rewrite match_marker_past_start.
  destruct s as [ | c s]; [reflexivity | ]. now rewrite IH.
Qed.

(** [re.sub] with the marker pattern removes the leading marker of a line,
    if it has one, and nothing else. *)
Lemma sub_marker ln :
  sub marker_re [] ln =
  match lead_marker ln with
  | Some rest => rest
  | None => ln
  end.
Proof.
  unfold sub. cbn [sub_loop].
  destruct (match_marker ln) as [n Hn]. rewrite Hn.
  destruct (lead_marker ln) as [rest | ].
  - cbn [Nat.ltb Nat.leb]. simpl. apply sub_loop_marker_past_start.
  - destruct ln as [ | c s]; [reflexivity | ].
    now rewrite sub_loop_marker_past_start.
Qed.

End MarkerPattern.

(** ** Blank-line collapsing *)

Section BlankRuns.

Import Re.

Lemma squeeze_short s :
  forall k, k + run_len is_LF s <= 2 -> squeeze k s = squeeze 0 s.
Proof.
  induction s as [ | c s IH]; intros k Hk; simpl in *; [reflexivity | ].
  destruct (is_LF c); [ | reflexivity].
  assert (Hlt : Nat.ltb k 2 = true) by (apply Nat.ltb_lt; lia).
  rewrite Hlt. f_equal.
  rewrite (IH (S k)), (IH 1) by lia. reflexivity.
Qed.

Lemma squeeze_full s :
  forall k k', 2 <= k -> squeeze k s = squeeze k' (drop_while is_LF s).
Proof.
  induction s as [ | c s IH]; intros k k' Hk; simpl; [reflexivity | ].
  destruct (is_LF c) eqn:E.
  - assert (Hlt : Nat.ltb k 2 = false) by (apply Nat.ltb_ge; lia).
    rewrite Hlt. apply IH. lia.
  - simpl. now rewrite E.
Qed.

Lemma squeeze_long s :
  3 <= run_len is_LF s ->
  squeeze 0 s = LF :: LF :: squeeze 0 (drop_while is_LF s).
Proof.
  destruct s as [ | c1 s]; simpl; [lia | ].
  destruct (is_LF c1) eqn:E1; [ | lia].
  destruct s as [ | c2 s]; simpl; [lia | ].
  destruct (is_LF c2) eqn:E2; [ | lia].
  destruct s as [ | c3 s]; simpl; [lia | ].
  destruct (is_LF c3) eqn:E3; [ | lia].
  intros _. apply is_LF_eq in E1, E2. subst c1 c2.
  do 2 f_equal. apply squeeze_full. lia.
Qed.

Lemma squeeze_step c s :
  run_len is_LF (c :: s) < 3 -> squeeze 0 (c :: s) = c :: squeeze 0 s.
Proof.
  simpl. destruct (is_LF c); [ | reflexivity].
  intros H. f_equal. apply squeeze_short. lia.
Qed.

Lemma match_blank_run pos s :
  match_at blank_run_re pos s =
  if Nat.leb 3 (run_len is_LF s)
  then Some (pos + run_len is_LF s, drop_while is_LF s) else None.
Proof.
  unfold match_at, blank_run_re. cbn [exec].
  now rewrite rep_greedy_total by discriminate.
Qed.

Lemma sub_loop_blank fuel :
  forall pos s,
    List.length s < fuel ->
    sub_loop fuel blank_run_re [LF; LF] pos s = squeeze 0 s.
Proof.
  induction fuel as [ | fuel IH]; intros pos s Hf; [lia | ].
  cbn [sub_loop]. rewrite match_blank_run.
  destruct (Nat.leb 3 (run_len is_LF s)) eqn:E.
  - apply Nat.leb_le in E.
    assert (Hlt : Nat.ltb pos (pos + run_len is_LF s) = true)
      by (apply Nat.ltb_lt; lia).
    rewrite Hlt, squeeze_long by assumption.
    rewrite IH; [reflexivity | ].
    pose proof (run_len_drop_while is_LF s). lia.
  - apply Nat.leb_gt in E.
    destruct s as [ | c s]; [reflexivity | ].
    rewrite squeeze_step by assumption.
    rewrite IH; [reflexivity | simpl in Hf; lia].
Qed.

(** [re.sub(r'\n{3,}', '\n\n', s)] is the one-pass [squeeze]. *)
Lemma sub_blank s : sub blank_run_re [LF; LF] s = squeeze 0 s.
Proof. unfold sub. apply sub_loop_blank. lia. Qed.

Lemma squeeze_idem s :
  forall k, squeeze (Nat.min k 2) (squeeze k s) = squeeze k s.
Proof.
  induction s as [ | c s IH]; intros k; simpl; [reflexivity | ].
  destruct (is_LF c) eqn:E.
  - destruct (Nat.ltb k 2) eqn:Hk.
    + apply Nat.ltb_lt in Hk. simpl. rewrite E.
      replace (Nat.min k 2) with k by lia.
      assert (Hlt : Nat.ltb k 2 = true) by (apply Nat.ltb_lt; lia).
      rewrite Hlt. f_equal.
      specialize (IH (S k)). replace (Nat.min (S k) 2) with (S k) in IH by lia.
      exact IH.
    + apply Nat.ltb_ge in Hk.
      specialize (IH (S k)). replace (Nat.min (S k) 2) with 2 in IH by lia.
      replace (Nat.min k 2) with 2 by lia. exact IH.
  - simpl. rewrite E. f_equal. apply (IH 0).
Qed.

Lemma squeeze_In k s c : In c (squeeze k s) -> In c s.
Proof.
  revert k. induction s as [ | d s IH]; intros k; simpl; [tauto | ].
  destruct (is_LF d).
  - destruct (Nat.ltb k 2); simpl; intros H.
    + destruct H; [auto | right; eauto].
    + right; eauto.
  - simpl. intros [H | H]; [auto | right; eauto].
Qed.

(** Appending after a character that is not a line feed restarts the
    count. *)
Lemma squeeze_app_nonLF a c b :
  is_LF c = false ->
  forall k, squeeze k (a ++ c :: b) = squeeze k (a ++ [c]) ++ squeeze 0 b.
Proof.
  intros Hc. induction a as [ | d a IH]; intros k; simpl.
  - rewrite Hc. reflexivity.
  - destruct (is_LF d).
    + destruct (Nat.ltb k 2); simpl; now rewrite IH.
    + simpl. now rewrite IH.
Qed.

Lemma squeeze_repeat n :
  forall k b,
    head_in is_LF b = false ->
    squeeze k (repeat LF n ++ b) = repeat LF (Nat.min (2 - k) n) ++ squeeze 0 b.
Proof.
  induction n as [ | n IH]; intros k b Hb.
  - rewrite Nat.min_0_r. simpl.
    destruct b as [ | c b]; simpl in *; [reflexivity | now rewrite Hb].
  - cbn [repeat app squeeze]. change (is_LF LF) with true. cbn iota.
    destruct (Nat.ltb k 2) eqn:Hk.
    + apply Nat.ltb_lt in Hk. rewrite IH by assumption.
      replace (Nat.min (2 - k) (S n)) with (S (Nat.min (2 - S k) n)) by lia.
      reflexivity.
    + apply Nat.ltb_ge in Hk. rewrite IH by assumption.
      replace (2 - k) with 0 by lia. replace (2 - S k) with 0 by lia.
      reflexivity.
Qed.

(** The output of [squeeze] has no three line feeds in a row. *)
Lemma startswith_triple d1 d2 r :
  is_LF d1 && is_LF d2 = false ->
  startswith (LF :: d1 :: d2 :: r) [LF; LF; LF] = false.
Proof.
  unfold is_LF. cbn [startswith]. intros H.
  rewrite (N.eqb_sym LF d1), (N.eqb_sym LF d2).
  destruct (N.eqb d1 LF), (N.eqb d2 LF); simpl in *; congruence.
Qed.

Lemma squeeze_no_triple s :
  forall k,
    contains (squeeze k s) [LF; LF; LF] = false
    /\ run_len is_LF (squeeze k s) <= 2 - k.
Proof.
  induction s as [ | c s IH]; intros k; cbn [squeeze].
  - split; [reflexivity | cbn [run_len]; lia].
  - destruct (is_LF c) eqn:E.
    + destruct (Nat.ltb k 2) eqn:Hk.
      * apply Nat.ltb_lt in Hk. destruct (IH (S k)) as [H1 H2].
        cbn [contains run_len]. rewrite E, H1, orb_false_r.
        split; [ | lia].
        apply is_LF_eq in E. subst c.
        destruct (squeeze (S k) s) as [ | d1 [ | d2 r]] eqn:F;
          try reflexivity.
        { cbn [startswith]. now rewrite andb_false_r. }
        apply startswith_triple.
        cbn [run_len] in H2.
        destruct (is_LF d1); [ | reflexivity].
        destruct (is_LF d2); [lia | reflexivity].
      * apply Nat.ltb_ge in Hk. destruct (IH (S k)) as [H1 H2].
        split; [exact H1 | lia].
    + destruct (IH 0) as [H1 H2]. cbn [contains run_len].
      rewrite E, H1, orb_false_r. split; [ | lia].
      cbn [startswith]. unfold is_LF in E. rewrite N.eqb_sym in E.
      now rewrite E.
Qed.

End BlankRuns.

(** ** [strip], [join], [splitlines] and [split] *)

Section Strings.

Lemma last_in_snoc p a c : last_in p (a ++ [c]) = p c.
Proof. unfold last_in. now rewrite rev_app_distr. Qed.

Lemma last_in_cons p c s : s <> [] -> last_in p (c :: s) = last_in p s.
Proof.
  intros Hs. destruct (exists_last Hs) as (a & d & ->).
  change (c :: a ++ [d]) with ((c :: a) ++ [d]). now rewrite !last_in_snoc.
Qed.

Lemma last_in_app p a b : b <> [] -> last_in p (a ++ b) = last_in p b.
Proof.
  intros Hb. destruct (exists_last Hb) as (b' & d & ->).
  now rewrite app_assoc, !last_in_snoc.
Qed.

Lemma last_in_weaken (p q : char -> bool) s :
  (forall c, p c = true -> q c = true) ->
  last_in q s = false -> last_in p s = false.
Proof.
  intros Hpq. unfold last_in. destruct (rev s) as [ | c r]; simpl; auto.
  intros Hq. destruct (p c) eqn:E; auto. apply Hpq in E. congruence.
Qed.

Lemma drop_while_In p s c : In c (drop_while p s) -> In c s.
Proof.
  induction s as [ | d s IH]; simpl; auto.
  destruct (p d); simpl; auto.
Qed.

(** *** [rstrip] and [strip] *)

Lemma rstrip_fix s : last_in isspace s = false -> rstrip s = s.
Proof.
  induction s as [ | c s IH]; intros H; [reflexivity | ].
  destruct s as [ | d s].
  - unfold last_in in H. simpl in *. now rewrite H.
  - rewrite last_in_cons in H by discriminate.
    cbn [rstrip]. cbn [rstrip] in IH. rewrite (IH H). reflexivity.
Qed.

Lemma rstrip_last s : last_in isspace (rstrip s) = false.
Proof.
  induction s as [ | c s IH]; [reflexivity | ].
  cbn [rstrip]. destruct (rstrip s) as [ | d r] eqn:E.
  - destruct (isspace c) eqn:F; [reflexivity | ].
    unfold last_in. simpl. exact F.
  - rewrite last_in_cons by discriminate. exact IH.
Qed.

Lemma rstrip_head p s : head_in p s = false -> head_in p (rstrip s) = false.
Proof.
  destruct s as [ | c s]; [reflexivity | ].
  cbn [rstrip]. destruct (rstrip s); [ | auto].
  destruct (isspace c); auto.
Qed.

Lemma rstrip_In s c : In c (rstrip s) -> In c s.
Proof.
  induction s as [ | d s IH]; [auto | ].
  cbn [rstrip]. destruct (rstrip s) as [ | e r].
  - destruct (isspace d); simpl; tauto.
  - simpl. intros [H | H]; [auto | right; apply IH; exact H].
Qed.

Lemma strip_fix s :
  head_in isspace s = false -> last_in isspace s = false -> strip s = s.
Proof.
  intros Hh Hl. unfold strip, lstrip.
  rewrite drop_while_id by assumption. now apply rstrip_fix.
Qed.

Lemma strip_head s : head_in isspace (strip s) = false.
Proof. unfold strip, lstrip. apply rstrip_head, drop_while_head. Qed.

Lemma strip_last s : last_in isspace (strip s) = false.
Proof. unfold strip. apply rstrip_last. Qed.

Lemma strip_In s c : In c (strip s) -> In c s.
Proof.
  unfold strip, lstrip. intros H.
  apply rstrip_In in H. now apply drop_while_In in H.
Qed.

Lemma rstrip_all_space s : forallb isspace s = true -> rstrip s = [].
Proof.
  induction s as [ | c s IH]; [reflexivity | ].
  simpl. intros H. apply andb_true_iff in H. destruct H as [Hc Hs].
  now rewrite (IH Hs), Hc.
Qed.

Lemma rstrip_nil s : rstrip s = [] -> forallb isspace s = true.
Proof.
  induction s as [ | c s IH]; [reflexivity | ].
  cbn [rstrip]. destruct (rstrip s) as [ | d r]; [ | discriminate].
  destruct (isspace c) eqn:E; [ | discriminate].
  intros _. simpl. rewrite E. now apply IH.
Qed.

(** [strip] returns the empty string on whitespace-only input, and on no
    other. *)
Lemma strip_nil_iff s : strip s = [] <-> forallb isspace s = true.
Proof.
  unfold strip, lstrip. split.
  - intros H. apply rstrip_nil in H.
    destruct (drop_while_split isspace s) as (r & Hr & Hp).
    rewrite Hr, forallb_app, Hp, H. reflexivity.
  - intros H. apply rstrip_all_space.
    destruct (drop_while_split isspace s) as (r & Hr & Hp).
    rewrite Hr, forallb_app in H. apply andb_true_iff in H. tauto.
Qed.

(** *** [join] *)

Lemma join_cons sep p q rest :
  join sep (p :: q :: rest) = p ++ sep ++ join sep (q :: rest).
Proof. reflexivity. Qed.

Lemma join_In sep parts c :
  In c (join sep parts) -> In c sep \/ exists l, In l parts /\ In c l.
Proof.
  induction parts as [ | p rest IH]; [simpl; tauto | ].
  destruct rest as [ | q rest].
  - simpl. intros H. right. exists p. auto.
  - rewrite join_cons, !in_app_iff. intros [H | [H | H]].
    + right. exists p. simpl. auto.
    + auto.
    + destruct (IH H) as [H' | (l & Hl & Hc)]; [auto | ].
      right. exists l. split; [right; exact Hl | exact Hc].
Qed.

(** *** [splitlines] *)

Lemma splitlines_nil s : splitlines s = [] -> s = [].
Proof.
  destruct s as [ | c s]; [reflexivity | ].
  cbn [splitlines]. destruct (islinebreak c).
  - destruct (N.eqb c CR); [ | discriminate].
    destruct s as [ | d s]; [discriminate | ].
    destruct (N.eqb d LF); discriminate.
  - destruct (splitlines s); discriminate.
Qed.

Lemma splitlines_no_break s :
  forall l c, In l (splitlines s) -> In c l -> islinebreak c = false.
Proof.
  induction s as [s IH] using (well_founded_induction
                                 (Wf_nat.well_founded_ltof _ (@List.length char))).
  unfold Wf_nat.ltof in IH.
  destruct s as [ | d s]; intros l c Hl Hc; [destruct Hl | ].
  cbn [splitlines] in Hl. destruct (islinebreak d) eqn:E.
  - destruct (N.eqb d CR).
    + destruct s as [ | e s].
      * destruct Hl as [<- | []]. destruct Hc.
      * destruct (N.eqb e LF); destruct Hl as [<- | Hl]; try (now destruct Hc).
        -- apply (IH s) with (l := l); simpl; auto.
        -- apply (IH (e :: s)) with (l := l); simpl; auto.
    + destruct Hl as [<- | Hl]; [destruct Hc | ].
      apply (IH s) with (l := l); simpl; auto.
  - destruct (splitlines s) as [ | l0 ls] eqn:F.
    + destruct Hl as [<- | []]. destruct Hc as [<- | []]. exact E.
    + destruct Hl as [<- | Hl].
      * destruct Hc as [<- | Hc]; [exact E | ].
        apply (IH s) with (l := l0); simpl; auto. rewrite F. now left.
      * apply (IH s) with (l := l); simpl; auto. rewrite F. now right.
Qed.

Lemma join_splitlines s :
  only_LF s -> last_in is_LF s = false -> join [LF] (splitlines s) = s.
Proof.
  induction s as [ | c s IH]; intros Ho Hl; [reflexivity | ].
  assert (Ho' : only_LF s) by (intros d Hd; apply Ho; now right).
  assert (Hl' : last_in is_LF s = false).
  { destruct s as [ | d s]; [reflexivity | ].
    now rewrite last_in_cons in Hl by discriminate. }
  specialize (IH Ho' Hl').
  cbn [splitlines]. destruct (islinebreak c) eqn:E.
  - assert (c = LF) by (apply Ho; [now left | exact E]). subst c.
    change (N.eqb LF CR) with false. cbn iota.
    destruct s as [ | d s]; [discriminate Hl | ].
    destruct (splitlines (d :: s)) as [ | l ls] eqn:F.
    + apply splitlines_nil in F. discriminate.
    + rewrite join_cons, IH. reflexivity.
  - destruct (splitlines s) as [ | l ls] eqn:F.
    + apply splitlines_nil in F. now subst.
    + rewrite <- IH. destruct ls; reflexivity.
Qed.

End Strings.

(** ** Words *)

Section Words.

Lemma split_go_spec s :
  forallb nonspace (fst (split_go s)) = true
  /\ Forall is_word (snd (split_go s)).
Proof.
  induction s as [ | c s IH]; simpl; [auto | ].
  destruct (split_go s) as [w ws]. simpl in IH. destruct IH as [Hw Hws].
  destruct (isspace c) eqn:E; simpl.
  - split; [reflexivity | ].
    destruct w as [ | d w]; simpl; [exact Hws | ].
    constructor; [ | exact Hws]. split; [discriminate | exact Hw].
  - unfold nonspace at 1. rewrite E. simpl. auto.
Qed.

Lemma push_word_words w ws :
  forallb nonspace w = true -> Forall is_word ws ->
  Forall is_word (push_word w ws).
Proof.
  intros Hw Hws. destruct w as [ | d w]; simpl; [exact Hws | ].
  constructor; [ | exact Hws]. split; [discriminate | exact Hw].
Qed.

(** What [split] returns are words. *)
Lemma split_words s : Forall is_word (split s).
Proof.
  unfold split. pose proof (split_go_spec s) as H.
  destruct (split_go s) as [w ws]. simpl in H.
  apply push_word_words; tauto.
Qed.

Lemma split_go_app u s :
  forallb nonspace u = true ->
  split_go (u ++ s) = (u ++ fst (split_go s), snd (split_go s)).
Proof.
  induction u as [ | c u IH]; simpl; intros H.
  - now destruct (split_go s).
  - apply andb_true_iff in H. destruct H as [Hc Hu].
    rewrite (IH Hu). unfold nonspace in Hc.
    destruct (isspace c); [discriminate | reflexivity].
Qed.

Lemma split_word_then_space u c s :
  is_word u -> isspace c = true -> split (u ++ c :: s) = u :: split s.
Proof.
  intros [Hne Hu] Hc. unfold split. rewrite split_go_app by exact Hu.
  simpl. rewrite Hc. destruct (split_go s) as [w ws]. simpl.
  rewrite app_nil_r. destruct u; [congruence | reflexivity].
Qed.

Lemma split_word u : is_word u -> split u = [u].
Proof.
  intros [Hne Hu]. unfold split.
  rewrite <- (app_nil_r u) at 1. rewrite split_go_app by exact Hu.
  simpl. rewrite app_nil_r. destruct u; [congruence | reflexivity].
Qed.

(** Joining words with single spaces and splitting again gives the words
    back. *)
Lemma split_join ws : Forall is_word ws -> split (join [SP] ws) = ws.
Proof.
  induction 1 as [ | w rest Hw Hrest IH]; [reflexivity | ].
  destruct rest as [ | q rest].
  - simpl. now apply split_word.
  - rewrite join_cons. cbn [app].
    rewrite split_word_then_space by (auto; reflexivity).
    now rewrite IH.
Qed.

Lemma is_word_app w d :
  is_word w -> forallb nonspace d = true -> is_word (w ++ d).
Proof.
  intros [Hne Hw] Hd. split.
  - destruct w; [congruence | discriminate].
  - fold nonspace. rewrite forallb_app. fold nonspace in Hw.
    now rewrite Hw, Hd.
Qed.

Lemma join_snoc_suffix sep ws w d :
  join sep (ws ++ [w]) ++ d = join sep (ws ++ [w ++ d]).
Proof.
  induction ws as [ | p rest IH]; [reflexivity | ].
  destruct rest as [ | q rest].
  - simpl. now rewrite <- !app_assoc.
  - cbn [app] in *. rewrite !join_cons, <- !app_assoc. now rewrite IH.
Qed.

(** A suffix without whitespace glued to the joined words adds no word. *)
Lemma split_join_suffix ws d :
  Forall is_word ws -> is_word d ->
  List.length (split (join [SP] ws ++ d)) = Nat.max 1 (List.length ws).
Proof.
  intros Hws Hd. destruct ws as [ | p rest].
  - simpl. now rewrite split_word.
  - destruct (@exists_last _ (p :: rest)) as (ws' & w & E); [discriminate | ].
    rewrite E in *. rewrite join_snoc_suffix.
    apply Forall_app in Hws. destruct Hws as [H1 H2].
    rewrite split_join.
    + rewrite !length_app. cbn [List.length]. lia.
    + apply Forall_app. split; [exact H1 | ].
      constructor; [ | constructor].
      apply is_word_app; [now inversion H2 | apply Hd].
Qed.

Lemma word_last w : is_word w -> last_in isspace w = false.
Proof.
  intros [Hne Hw]. destruct (exists_last Hne) as (a & c & ->).
  rewrite last_in_snoc. rewrite forallb_app in Hw.
  apply andb_true_iff in Hw. destruct Hw as [_ Hc].
  simpl in Hc. unfold nonspace in Hc.
  destruct (isspace c); [discriminate | reflexivity].
Qed.

Lemma word_head w : is_word w -> head_in isspace w = false.
Proof.
  intros [Hne Hw]. destruct w as [ | c w]; [congruence | ].
  simpl in *. unfold nonspace in Hw.
  destruct (isspace c); [discriminate | reflexivity].
Qed.

Lemma join_words_nonempty w ws : is_word w -> join [SP] (w :: ws) <> [].
Proof.
  intros [Hne _]. destruct ws; simpl; destruct w; try congruence; discriminate.
Qed.

Lemma join_words_last ws :
  Forall is_word ws -> last_in isspace (join [SP] ws) = false.
Proof.
  induction 1 as [ | w rest Hw Hrest IH]; [reflexivity | ].
  destruct rest as [ | q rest].
  - simpl. now apply word_last.
  - rewrite join_cons, last_in_app.
    + cbn [app]. rewrite last_in_cons; [exact IH | ].
      apply join_words_nonempty. now inversion Hrest.
    + discriminate.
Qed.

Lemma join_words_head ws :
  Forall is_word ws -> head_in isspace (join [SP] ws) = false.
Proof.
  intros H. destruct H as [ | w rest Hw Hrest]; [reflexivity | ].
  pose proof (word_head Hw) as Hh.
  destruct rest; [exact Hh | ].
  rewrite join_cons. destruct w; [destruct Hw; congruence | exact Hh].
Qed.

(** [rstrip] after joining words has nothing to remove. *)
Lemma rstrip_join_words ws :
  Forall is_word ws -> rstrip (join [SP] ws) = join [SP] ws.
Proof. intros H. apply rstrip_fix. now apply join_words_last. Qed.

Lemma slice_to_prefix (A : Type) (l : list A) k :
  exists n, slice_to l k = firstn n l.
Proof. unfold slice_to. eexists. reflexivity. Qed.

Lemma slice_to_firstn (A : Type) (l : list A) k :
  (0 <= k)%Z -> slice_to l k = firstn (Z.to_nat k) l.
Proof.
  intros Hk. unfold slice_to.
  assert (E : (k <? 0)%Z = false) by (apply Z.ltb_ge; lia). rewrite E.
  destruct (Z.min_spec k (Z.of_nat (List.length l))) as [[H1 ->] | [H1 ->]].
  - reflexivity.
  - rewrite Nat2Z.id, firstn_all.
    symmetry. apply firstn_all2. lia.
Qed.

Lemma Forall_firstn (A : Type) (P : A -> Prop) n (l : list A) :
  Forall P l -> Forall P (firstn n l).
Proof.
  intros H. rewrite <- (firstn_skipn n l) in H.
  apply Forall_app in H. tauto.
Qed.

Lemma slice_to_words ws k : Forall is_word ws -> Forall is_word (slice_to ws k).
Proof.
  intros H. destruct (slice_to_prefix ws k) as [n ->].
  now apply Forall_firstn.
Qed.

End Words.

(** ** What [_denumerate] and [_clean] return *)

Section CleanFacts.

Import Re.

(** A removed marker is a prefix of the line and has the marker shape. *)
Lemma lead_marker_split ln rest :
  lead_marker ln = Some rest -> exists m, ln = m ++ rest /\ is_marker m.
Proof.
  unfold lead_marker. intros H.
  destruct (drop_while_split isspace ln) as (ws0 & Hln & Hws0).
  destruct (drop_while isspace ln) as [ | c s1] eqn:E1; [discriminate | ].
  cbn [after_head] in H.
  assert (Hhd : exists hd s2,
             c :: s1 = hd ++ s2 /\ after_punct s2 = Some rest
             /\ ((hd <> [] /\ forallb isdecimal hd = true)
                 \/ (exists b, hd = [b] /\ is_bullet b = true))).
  { destruct (isdecimal c) eqn:Ec.
    - destruct (drop_while_split isdecimal s1) as (r & Hr & Hp).
      exists (c :: r), (drop_while isdecimal s1). repeat split.
      + simpl. now rewrite <- Hr.
      + exact H.
      + left. split; [discriminate | ]. simpl. now rewrite Ec, Hp.
    - destruct (is_bullet c) eqn:Eb; [ | discriminate].
      exists [c], s1. repeat split; [exact H | ]. right. eauto. }
  destruct Hhd as (hd & s2 & Hs & Hp & Hhd).
  destruct s2 as [ | q s3]; [discriminate | ]. cbn [after_punct] in Hp.
  destruct (is_marker_punct q) eqn:Eq; [ | discriminate].
  injection Hp as <-.
  destruct (drop_while_split isspace s3) as (ws1 & Hs3 & Hws1).
  exists (ws0 ++ hd ++ q :: ws1). split.
  - rewrite Hln, Hs. rewrite Hs3 at 1. now rewrite <- !app_assoc.
  - exists ws0, hd, q, ws1. auto.
Qed.

Lemma sub_marker_In ln c : In c (sub marker_re [] ln) -> In c ln.
Proof.
  rewrite sub_marker. destruct (lead_marker ln) as [rest | ] eqn:E; [ | auto].
  destruct (lead_marker_split _ E) as (m & -> & _).
  intros H. apply in_or_app. now right.
Qed.

Lemma sub_marker_no_match ln :
  match_at marker_re 0 ln = None -> sub marker_re [] ln = ln.
Proof.
  intros H. rewrite sub_marker. destruct (match_marker ln) as [n Hn].
  rewrite H in Hn. destruct (lead_marker ln); [discriminate | reflexivity].
Qed.

Lemma squeeze_head u :
  head_in isspace u = false -> head_in isspace (squeeze 0 u) = false.
Proof.
  destruct u as [ | c u]; [reflexivity | ]. simpl. intros H.
  destruct (is_LF c) eqn:E; [ | exact H].
  apply is_LF_isspace in E. congruence.
Qed.

Lemma squeeze_snoc a c :
  is_LF c = false -> forall k, squeeze k (a ++ [c]) = squeeze k a ++ [c].
Proof.
  intros Hc. induction a as [ | d a IH]; intros k; simpl.
  - now rewrite Hc.
  - destruct (is_LF d).
    + destruct (Nat.ltb k 2); simpl; now rewrite IH.
    + simpl. now rewrite IH.
Qed.

Lemma squeeze_last u :
  last_in isspace u = false -> last_in isspace (squeeze 0 u) = false.
Proof.
  destruct u as [ | c0 u0]; [reflexivity | ].
  destruct (@exists_last _ (c0 :: u0)) as (a & c & ->); [discriminate | ].
  rewrite last_in_snoc. intros H.
  rewrite squeeze_snoc, last_in_snoc; [exact H | ].
  destruct (is_LF c) eqn:E; [ | reflexivity].
  apply is_LF_isspace in E. congruence.
Qed.

Lemma squeeze_no_LF s :
  (forall c, In c s -> is_LF c = false) -> forall k, squeeze k s = s.
Proof.
  induction s as [ | c s IH]; intros H k; [reflexivity | ].
  simpl. rewrite (H c) by now left.
  f_equal. apply IH. intros d Hd. apply H. now right.
Qed.

Lemma denumerate_shape x : clean_shape (_denumerate x).
Proof.
  unfold _denumerate. rewrite sub_blank.
  set (ls := List.map (fun ln => sub marker_re [] ln) (splitlines (or_empty x))).
  repeat split.
  - intros c Hc Hb.
    apply squeeze_In, strip_In, join_In in Hc.
    destruct Hc as [[<- | []] | (l & Hl & Hc)]; [reflexivity | ].
    apply in_map_iff in Hl. destruct Hl as (ln & <- & Hln).
    apply sub_marker_In in Hc.
    rewrite (splitlines_no_break _ _ _ Hln Hc) in Hb. discriminate.
  - apply squeeze_head, strip_head.
  - apply squeeze_last, strip_last.
  - apply (squeeze_idem (strip (join [LF] ls)) 0).
Qed.

Lemma dots_word : is_word dots.
Proof. split; [discriminate | reflexivity]. Qed.

Lemma truncated_shape ws :
  Forall is_word ws -> clean_shape (rstrip (join [SP] ws) ++ dots).
Proof.
  intros Hws. rewrite rstrip_join_words by assumption.
  assert (Hnb : forall c, In c (join [SP] ws ++ dots) -> islinebreak c = false).
  { intros c Hc. apply in_app_or in Hc. destruct Hc as [Hc | Hc].
    - apply join_In in Hc. destruct Hc as [[<- | []] | (l & Hl & Hc)];
        [reflexivity | ].
      rewrite Forall_forall in Hws. destruct (Hws l Hl) as [_ Hw].
      rewrite forallb_forall in Hw. specialize (Hw c Hc).
      destruct (islinebreak c) eqn:E; [ | reflexivity].
      apply islinebreak_isspace in E. unfold nonspace in Hw.
      rewrite E in Hw. discriminate.
    - unfold dots in Hc. simpl in Hc.
      destruct Hc as [<- | [<- | [<- | []]]]; reflexivity. }
  repeat split.
  - intros c Hc Hb. rewrite (Hnb c Hc) in Hb. discriminate.
  - pose proof (join_words_head Hws) as Hh.
    destruct (join [SP] ws); [reflexivity | exact Hh].
  - rewrite last_in_app by discriminate. reflexivity.
  - apply squeeze_no_LF. intros c Hc. specialize (Hnb c Hc).
    destruct (is_LF c) eqn:E; [ | reflexivity].
    apply is_LF_eq in E. subst c. discriminate.
Qed.

(** Either branch of [_clean] returns a string of that shape. *)
Lemma clean_shape_clean x N : clean_shape (_clean x N).
Proof.
  unfold _clean.
  destruct (Z.of_nat (List.length (split (_denumerate x))) >? N)%Z.
  - apply truncated_shape, slice_to_words, split_words.
  - apply denumerate_shape.
Qed.

(** On a string of that shape whose lines carry no marker, [_denumerate]
    changes nothing. *)
Lemma denumerate_fix y :
  clean_shape y ->
  (forall ln, In ln (splitlines y) -> match_at marker_re 0 ln = None) ->
  _denumerate (Some y) = y.
Proof.
  intros (Ho & Hh & Hl & Hs) Hm. unfold _denumerate. cbn [or_empty].
  assert (E : List.map (fun ln => sub marker_re [] ln) (splitlines y)
              = splitlines y).
  { rewrite <- (map_id (splitlines y)) at 2.
    apply map_ext_in. intros ln Hln. apply sub_marker_no_match. auto. }
  rewrite E, join_splitlines.
  - rewrite strip_fix by assumption. rewrite sub_blank. exact Hs.
  - exact Ho.
  - revert Hl. apply last_in_weaken. apply is_LF_isspace.
Qed.

(** With a budget of at least one word, [_clean] keeps to it. *)
Lemma clean_word_budget x N :
  (1 <= N)%Z -> (Z.of_nat (List.length (split (_clean x N))) <= N)%Z.
Proof.
  intros HN. unfold _clean.
  destruct (Z.of_nat (List.length (split (_denumerate x))) >? N)%Z eqn:E.
  - apply Z.gtb_lt in E.
    rewrite slice_to_firstn by lia.
    rewrite rstrip_join_words by (apply Forall_firstn, split_words).
    fold dots. rewrite split_join_suffix.
    + rewrite length_firstn. lia.
    + apply Forall_firstn, split_words.
    + apply dots_word.
  - rewrite Z.gtb_ltb in E. apply Z.ltb_ge in E. exact E.
Qed.

End CleanFacts.

(** ** Substring search and the fallback table *)

Section Fallback.

Lemma startswith_iff s k : startswith s k = true <-> exists post, s = k ++ post.
Proof.
  revert s. induction k as [ | a k IH]; intros s.
  - split; [intros _; now exists s | reflexivity].
  - destruct s as [ | b s]; cbn [startswith].
    + split; [discriminate | intros [post H]; discriminate].
    + rewrite andb_true_iff, N.eqb_eq, IH. split.
      * intros [-> [post ->]]. now exists post.
      * intros [post H]. injection H as -> ->. eauto.
Qed.

(** [k in s] holds exactly when [k] occurs in [s]. *)
Lemma contains_iff s k : contains s k = true <-> occurs_in k s.
Proof.
  unfold occurs_in. induction s as [ | c s IH]; cbn [contains].
  - rewrite orb_false_r, startswith_iff. split.
    + intros [post H]. now exists [], post.
    + intros (pre & post & H). destruct pre; [now exists post | discriminate].
  - rewrite orb_true_iff, startswith_iff, IH. split.
    + intros [[post H] | (pre & post & H)].
      * now exists [], post.
      * exists (c :: pre), post. simpl. now rewrite H.
    + intros (pre & post & H). destruct pre as [ | d pre].
      * left. now exists post.
      * right. injection H as -> ->. now exists pre, post.
Qed.

Lemma existsb_hit low keys :
  existsb (fun k => contains low k) keys = true <-> hit low keys.
Proof.
  unfold hit. rewrite existsb_exists.
  split; intros (k & Hk & H); exists k; split; auto; now apply contains_iff.
Qed.

(** The loop returns the reply of the first rule that is hit, and the
    default when none is, for any rule table. *)
Lemma fallback_loop_first low rules :
  (exists i keys rep,
      nth_error rules i = Some (keys, rep) /\ hit low keys
      /\ (forall j keys' rep',
             j < i -> nth_error rules j = Some (keys', rep') ->
             ~ hit low keys')
      /\ fallback_loop low rules = rep)
  \/ ((forall keys rep, In (keys, rep) rules -> ~ hit low keys)
      /\ fallback_loop low rules = _DEFAULT_FALLBACK).
Proof.
  induction rules as [ | [keys rep] rest IH]; cbn [fallback_loop].
  - right. split; [intros ? ? [] | reflexivity].
  - destruct (existsb (fun k => contains low k) keys) eqn:E.
    + left. exists 0, keys, rep. repeat split.
      * now apply existsb_hit.
      * intros j ? ? Hj. lia.
    + assert (Hno : ~ hit low keys).
      { intros H. apply existsb_hit in H. congruence. }
      destruct IH as [(i & keys0 & rep0 & Hn & Hh & Hfirst & Hr) | [Hnone Hr]].
      * left. exists (S i), keys0, rep0. repeat split; auto.
        intros [ | j] keys' rep' Hj Hnth.
        -- simpl in Hnth. injection Hnth as <- <-. exact Hno.
        -- simpl in Hnth. apply (Hfirst j keys' rep'); [lia | exact Hnth].
      * right. split; [ | exact Hr].
        intros keys' rep' [H | H].
        -- injection H as <- <-. exact Hno.
        -- eauto.
Qed.

Lemma fallback_loop_range low rules :
  In (fallback_loop low rules) (List.map snd rules)
  \/ fallback_loop low rules = _DEFAULT_FALLBACK.
Proof.
  induction rules as [ | [keys rep] rest IH]; cbn [fallback_loop].
  - now right.
  - destruct (existsb (fun k => contains low k) keys).
    + left. now left.
    + destruct IH; [left; now right | now right].
Qed.

Lemma fallback_replies_bounded r :
  In r (List.map snd _FALLBACK) \/ r = _DEFAULT_FALLBACK ->
  r <> [] /\ List.length (split r) <= 25.
Proof.
  intros [H | ->].
  - simpl in H.
    destruct H as [<- | [<- | [<- | [<- | []]]]];
      (split; [discriminate | vm_compute; repeat constructor]).
  - split; [discriminate | vm_compute; repeat constructor].
Qed.

End Fallback.

(** ** Lines and their markers *)

Section Lines.

Import Re.

Lemma punct_not_decimal p : is_marker_punct p = true -> isdecimal p = false.
Proof.
  intros H. destruct (isdecimal p) eqn:E; [ | reflexivity].
  apply isdecimal_not_punct in E. congruence.
Qed.

(** A numbered marker at the start of a line is what [lead_marker] finds. *)
Lemma lead_marker_numbered ws0 ds p ws1 rest :
  forallb isspace ws0 = true ->
  ds <> [] -> forallb isdecimal ds = true ->
  is_marker_punct p = true ->
  forallb isspace ws1 = true ->
  head_in isspace rest = false ->
  lead_marker (ws0 ++ ds ++ p :: ws1 ++ rest) = Some rest.
Proof.
  intros Hws0 Hne Hds Hp Hws1 Hrest.
  destruct ds as [ | d ds]; [congruence | ].
  cbn [forallb] in Hds. apply andb_true_iff in Hds. destruct Hds as [Hd Hds].
  unfold lead_marker. rewrite drop_while_app.
  - cbn [app after_head]. rewrite Hd.
    rewrite drop_while_app by (auto; simpl; now apply punct_not_decimal).
    cbn [after_punct]. rewrite Hp.
    now rewrite drop_while_app.
  - exact Hws0.
  - simpl. now apply isdecimal_not_space.
Qed.

(** A line that starts with an ordinary character has no leading marker. *)
Lemma lead_marker_ordinary c s :
  isspace c = false -> isdecimal c = false -> is_bullet c = false ->
  lead_marker (c :: s) = None.
Proof.
  intros Hs Hd Hb. unfold lead_marker. simpl. rewrite Hs. simpl.
  now rewrite Hd, Hb.
Qed.

(** [re.sub] leaves the line alone or removes one marker from its start. *)
Lemma sub_marker_once ln :
  sub marker_re [] ln = ln
  \/ exists m, is_marker m /\ ln = m ++ sub marker_re [] ln.
Proof.
  rewrite sub_marker. destruct (lead_marker ln) as [rest | ] eqn:E.
  - right. destruct (lead_marker_split _ E) as (m & Hm & Hshape). eauto.
  - now left.
Qed.

Lemma splitlines_line l s :
  unbroken l -> splitlines (l ++ LF :: s) = l :: splitlines s.
Proof.
  unfold unbroken. induction l as [ | c l IH]; intros H.
  - reflexivity.
  - cbn [forallb] in H. apply andb_true_iff in H. destruct H as [Hc Hl].
    cbn [app splitlines]. rewrite (IH Hl).
    destruct (islinebreak c); [discriminate | reflexivity].
Qed.

Lemma splitlines_last_line l : unbroken l -> l <> [] -> splitlines l = [l].
Proof.
  unfold unbroken. induction l as [ | c l IH]; intros H Hne; [congruence | ].
  cbn [forallb] in H. apply andb_true_iff in H. destruct H as [Hc Hl].
  cbn [splitlines]. destruct (islinebreak c); [discriminate | ].
  destruct l as [ | d l]; [reflexivity | ].
  rewrite IH; [reflexivity | exact Hl | discriminate].
Qed.

(** [splitlines] gives back the lines that were joined with line feeds, the
    last of them not being empty. *)
Lemma splitlines_join lns :
  Forall unbroken lns -> last lns [] <> [] ->
  splitlines (join [LF] lns) = lns.
Proof.
  induction 1 as [ | l rest Hl Hrest IH]; intros Hlast; [reflexivity | ].
  destruct rest as [ | q rest].
  - simpl in *. now apply splitlines_last_line.
  - rewrite join_cons. cbn [app]. rewrite splitlines_line by exact Hl.
    f_equal. apply IH. exact Hlast.
Qed.

End Lines.

(** ** The claims *)

Import Re.

(** With a collaborator, the handler keeps every reply within the budget of
    120 words, whichever path produced it. *)
Lemma api_chat_word_budget (lower : pystr -> pystr)
      (model : option (pystr -> result (option pystr)))
      (message : option pystr) (reply : pystr) :
  api_chat lower model message = Return (Reply200 reply) ->
  List.length (split reply) <= 120.
Proof.
  unfold api_chat.
  destruct (is_empty (strip (or_empty message))); [discriminate | ].
  assert (Hfb : forall t, List.length (split (_fallback_reply lower t)) <= 120).
  { intros t. unfold _fallback_reply.
    destruct (fallback_replies_bounded
                (fallback_loop_range (lower (or_empty t)) _FALLBACK)).
    lia. }
  destruct model as [g | ].
  - destruct (g (prompt (strip (or_empty message)))) as [text | ];
      cbn [bind try_except]; intros H; injection H as <-.
    + pose proof (@clean_word_budget
                    (Some (if is_empty (strip (or_empty text))
                           then _fallback_reply lower
                                  (Some (strip (or_empty message)))
                           else strip (or_empty text))) 120).
      lia.
    + apply Hfb.
  - intros H. injection H as <-. apply Hfb.
Qed.

(** The canned replies have no marker, no blank run and few words: [_clean]
    returns them as they are. *)
Lemma fallback_replies_clean r :
  In r (List.map snd _FALLBACK) \/ r = _DEFAULT_FALLBACK ->
  _clean (Some r) 120 = r.
Proof.
  intros [H | ->].
  - simpl in H.
    destruct H as [<- | [<- | [<- | [<- | []]]]]; vm_compute; reflexivity.
  - vm_compute. reflexivity.
Qed.

(** When the collaborator returns no text, or whitespace only, the reply is
    the fallback reply. *)
Lemma api_chat_empty_text (lower : pystr -> pystr)
      (generate_content : pystr -> result (option pystr))
      (message text : option pystr) :
  strip (or_empty message) <> [] ->
  generate_content (prompt (strip (or_empty message))) = Return text ->
  strip (or_empty text) = [] ->
  api_chat lower (Some generate_content) message
  = Return (Reply200
              (_fallback_reply lower (Some (strip (or_empty message))))).
Proof.
  intros Hm Hg Ht. unfold api_chat.
  destruct (strip (or_empty message)) as [ | c um] eqn:E; [congruence | ].
  cbn [is_empty]. rewrite Hg. cbn [bind try_except]. rewrite Ht.
  cbn [is_empty]. rewrite fallback_replies_clean; [reflexivity | ].
  apply fallback_loop_range.
Qed.

(** C1: the reply of an accepted request is not always non-empty.  The
    message "oi" is accepted; the collaborator answers "1.", which is not
    empty, so the emptiness guard of the handler lets it through; [_clean]
    then strips the marker, and the reply returned with status 200 is the
    empty string.  The word budget of 120, the other half of the claim, does
    hold on every path ([api_chat_word_budget]). *)
Theorem C1_reply_empty_after_clean (lower : pystr -> pystr) :
  strip (py "oi") <> []
  /\ strip (py "1.") <> []
  /\ api_chat lower (Some (fun _ => Return (Some (py "1.")))) (Some (py "oi"))
     = Return (Reply200 []).
Proof.
  split; [discriminate | ]. split; [discriminate | ]. reflexivity.
Qed.

(** C2: on the two-line input "• foo\n- bar" with budget 120 the program
    returns the input unchanged, not "foo\nbar": the pattern asks for one of
    [. ) - :] right after the bullet glyph, and a space is none of them.
    The same glyphs followed by such a character are removed. *)
Theorem C2_bullets_kept :
  _clean (Some (py "• foo" ++ [LF] ++ py "- bar")) 120
  = py "• foo" ++ [LF] ++ py "- bar"
  /\ _clean (Some (py "• foo" ++ [LF] ++ py "- bar")) 120
     <> py "foo" ++ [LF] ++ py "bar"
  /\ _clean (Some (py "•. foo" ++ [LF] ++ py "-: bar")) 120
     = py "foo" ++ [LF] ++ py "bar".
Proof.
  split; [vm_compute; reflexivity | ].
  split; [ | vm_compute; reflexivity].
  intros H. vm_compute in H. discriminate H.
Qed.

(** C3: [_fallback_reply] lowercases the text and walks the table in its
    order; it returns the reply of the first rule one of whose keywords
    occurs in the lowercased text, and the default reply when no rule has
    such a keyword.  The result is never the empty string and is always a
    reply of the table or the default.  The function is total: lowercasing
    and substring search raise nothing. *)
Theorem C3_fallback_first_match (lower : pystr -> pystr)
        (text : option pystr) :
  let low := lower (or_empty text) in
  let reply := _fallback_reply lower text in
  ((exists i keys rep,
       nth_error _FALLBACK i = Some (keys, rep) /\ hit low keys
       /\ (forall j keys' rep',
              j < i -> nth_error _FALLBACK j = Some (keys', rep') ->
              ~ hit low keys')
       /\ reply = rep)
   \/ ((forall keys rep, In (keys, rep) _FALLBACK -> ~ hit low keys)
       /\ reply = _DEFAULT_FALLBACK))
  /\ reply <> []
  /\ (In reply (List.map snd _FALLBACK) \/ reply = _DEFAULT_FALLBACK).
Proof.
  cbv zeta. unfold _fallback_reply. split; [ | split].
  - apply fallback_loop_first.
  - apply fallback_replies_bounded, fallback_loop_range.
  - apply fallback_loop_range.
Qed.

(** C4: the handler answers 400 exactly when the message is absent, empty or
    made of whitespace only; when the collaborator raises on an accepted
    message the reply is [_fallback_reply] of the trimmed message, as it is,
    without [_clean]; and the handler itself never raises. *)
Theorem C4_chat_errors (lower : pystr -> pystr)
        (model : option (pystr -> result (option pystr)))
        (message : option pystr) :
  let user_message := strip (or_empty message) in
  ((exists e, api_chat lower model message = Return (Error400 e))
   <-> forallb isspace (or_empty message) = true)
  /\ (forall generate_content,
         model = Some generate_content ->
         generate_content (prompt user_message) = Raise ->
         forallb isspace (or_empty message) = false ->
         api_chat lower model message
         = Return (Reply200 (_fallback_reply lower (Some user_message))))
  /\ api_chat lower model message <> Raise.
Proof.
  cbv zeta. unfold api_chat.
  pose proof (strip_nil_iff (or_empty message)) as Hnil.
  destruct (strip (or_empty message)) as [ | c um] eqn:E; cbn [is_empty].
  - assert (Hsp : forallb isspace (or_empty message) = true)
      by now apply Hnil.
    split; [ | split].
    + split; [intros _; exact Hsp | intros _; eauto].
    + intros g _ _ H. congruence.
    + discriminate.
  - assert (Hsp : forallb isspace (or_empty message) <> true).
    { intros H. apply Hnil in H. discriminate. }
    split; [ | split].
    + split; [ | intros H; now apply Hsp in H].
      intros [e H]. destruct model as [g | ]; [ | discriminate].
      destruct (g (prompt (c :: um))); discriminate.
    + intros g -> Hg _. now rewrite Hg.
    + destruct model as [g | ]; [ | discriminate].
      destruct (g (prompt (c :: um))); discriminate.
Qed.

Lemma C4_chat_errors_witness :
  api_chat (fun s => s) (Some (fun _ => Raise)) (Some (py " meu cv "))
  = Return (Reply200 (_fallback_reply (fun s => s) (Some (py "meu cv")))).
Proof.
  exact (proj1 (proj2 (C4_chat_errors (fun s => s) (Some (fun _ => Raise))
                                      (Some (py " meu cv "))))
               (fun _ => Raise) eq_refl eq_refl eq_refl).
Defined.

(** C5: for a budget [max_words] that is a count, when the cleaned text has
    more words than [max_words] the result is the first [max_words] words
    joined with single spaces, right-stripped, with "..." appended; otherwise
    it is the cleaned text itself.  [_clean "a b c d e" 3] is "a b c...". *)
Theorem C5_clean_truncates (text : option pystr) (max_words : Z) :
  (0 <= max_words)%Z ->
  let t := _denumerate text in
  let words := split t in
  ((Z.of_nat (List.length words) > max_words)%Z ->
   _clean text max_words
   = rstrip (join [SP] (firstn (Z.to_nat max_words) words)) ++ py "...")
  /\ ((Z.of_nat (List.length words) <= max_words)%Z ->
      _clean text max_words = t)
  /\ _clean (Some (py "a b c d e")) 3 = py "a b c...".
Proof.
  intros Hk. cbv zeta. unfold _clean. split; [ | split].
  - intros H. apply Z.gt_lt, Z.gtb_lt in H. rewrite H.
    now rewrite slice_to_firstn.
  - intros H.
    destruct (Z.of_nat (List.length (split (_denumerate text))) >? max_words)%Z
             eqn:E; [ | reflexivity].
    apply Z.gtb_lt in E. lia.
  - reflexivity.
Qed.

Lemma C5_clean_truncates_witness :
  _clean (Some (py "1. um dois" ++ [LF] ++ py "tres  quatro")) 2
  = py "um dois...".
Proof.
  refine (proj1 (@C5_clean_truncates
                   (Some (py "1. um dois" ++ [LF] ++ py "tres  quatro")) 2 _)
                _).
  - lia.
  - reflexivity.
Defined.

(** C6: a numbered marker at the start of a line (optional whitespace, one
    or more digits, one of [. ) - :], optional whitespace) is removed and
    the rest of the line is kept as it is; on any line, what is removed is
    nothing or one marker at the very start, so a marker further inside the
    line stays; every line of the text goes through this removal; and
    [_clean "1. Item A\n2. Item B" 120] is "Item A\nItem B". *)
Theorem C6_numbered_marker_stripped (ws0 ds ws1 rest : pystr) (p : char) :
  forallb isspace ws0 = true ->
  ds <> [] -> forallb isdecimal ds = true ->
  is_marker_punct p = true ->
  forallb isspace ws1 = true ->
  head_in isspace rest = false ->
  sub marker_re [] (ws0 ++ ds ++ p :: ws1 ++ rest) = rest
  /\ (forall ln,
         sub marker_re [] ln = ln
         \/ exists m, is_marker m /\ ln = m ++ sub marker_re [] ln)
  /\ (forall c s,
         isspace c = false -> isdecimal c = false -> is_bullet c = false ->
         sub marker_re [] (c :: s) = c :: s)
  /\ (forall lns,
         Forall unbroken lns -> last lns [] <> [] ->
         _denumerate (Some (join [LF] lns))
         = sub blank_run_re [LF; LF]
               (strip (join [LF] (List.map (sub marker_re []) lns))))
  /\ sub marker_re [] (py "Item 1. A") = py "Item 1. A"
  /\ _clean (Some (py "1. Item A" ++ [LF] ++ py "2. Item B")) 120
     = py "Item A" ++ [LF] ++ py "Item B".
Proof.
  intros Hws0 Hne Hds Hp Hws1 Hrest.
  split; [ | split; [ | split; [ | split; [ | split]]]].
  - rewrite sub_marker. now rewrite lead_marker_numbered.
  - apply sub_marker_once.
  - intros c s Hs Hd Hb. rewrite sub_marker.
    now rewrite lead_marker_ordinary.
  - intros lns Hl Hlast. unfold _denumerate. cbn [or_empty].
    now rewrite splitlines_join.
  - vm_compute. reflexivity.
  - vm_compute. reflexivity.
Qed.

Lemma C6_numbered_marker_stripped_witness :
  sub marker_re [] (py " " ++ py "12" ++ 0x29%N :: py "  " ++ py "3. Item")
  = py "3. Item".
Proof.
  refine (proj1 (@C6_numbered_marker_stripped
                   (py " ") (py "12") (py "  ") (py "3. Item") 0x29%N
                   _ _ _ _ _ _)).
  - reflexivity.
  - vm_compute. discriminate.
  - reflexivity.
  - reflexivity.
  - reflexivity.
  - reflexivity.
Defined.

(** C7: [_denumerate] collapses blank runs last, after the markers are
    removed and the whole text is stripped; a run of [n] line feeds between
    other text comes out as 2 line feeds when [n] is 3 or more and as [n]
    otherwise; no result of [_clean] has three line feeds in a row; and
    [_clean "A\n\n\n\nB" 120] is "A\n\nB". *)
Theorem C7_blank_runs_collapsed (a b : pystr) (n : nat) :
  last_in is_LF a = false ->
  head_in is_LF b = false ->
  sub blank_run_re [LF; LF] (a ++ repeat LF n ++ b)
  = sub blank_run_re [LF; LF] a
    ++ repeat LF (if Nat.leb 3 n then 2 else n)
    ++ sub blank_run_re [LF; LF] b
  /\ (forall text,
         _denumerate text
         = sub blank_run_re [LF; LF]
               (strip (join [LF] (List.map (sub marker_re [])
                                           (splitlines (or_empty text))))))
  /\ (forall text max_words,
         contains (_clean text max_words) [LF; LF; LF] = false)
  /\ _clean (Some (py "A" ++ [LF; LF; LF; LF] ++ py "B")) 120
     = py "A" ++ [LF; LF] ++ py "B".
Proof.
  intros Ha Hb. split; [ | split; [ | split]].
  - rewrite !sub_blank.
    assert (Hrun : squeeze 0 (repeat LF n ++ b)
                   = repeat LF (if Nat.leb 3 n then 2 else n) ++ squeeze 0 b).
    { rewrite squeeze_repeat by exact Hb. f_equal. f_equal.
      destruct (Nat.leb 3 n) eqn:E.
      - apply Nat.leb_le in E. lia.
      - apply Nat.leb_gt in E. lia. }
    destruct a as [ | c0 a0].
    + exact Hrun.
    + destruct (@exists_last _ (c0 :: a0)) as (a' & c & E); [discriminate | ].
      rewrite E in *. rewrite last_in_snoc in Ha.
      rewrite <- app_assoc. cbn [app].
      rewrite squeeze_app_nonLF by exact Ha.
      now rewrite Hrun.
  - reflexivity.
  - intros text max_words.
    destruct (clean_shape_clean text max_words) as (_ & _ & _ & Hs).
    rewrite <- Hs. apply squeeze_no_triple.
  - vm_compute. reflexivity.
Qed.

Lemma C7_blank_runs_collapsed_witness :
  sub blank_run_re [LF; LF] (py "A" ++ repeat LF 5 ++ py "B")
  = sub blank_run_re [LF; LF] (py "A")
    ++ repeat LF 2 ++ sub blank_run_re [LF; LF] (py "B").
Proof.
  refine (proj1 (@C7_blank_runs_collapsed (py "A") (py "B") 5 _ _)).
  - reflexivity.
  - reflexivity.
Defined.

(** C8: when the result [y] of [_clean x N] has at most [N] words and none
    of its lines starts with an enumeration marker, cleaning it again with
    the same budget returns [y]. *)
Theorem C8_clean_idempotent (x : option pystr) (N : Z) :
  let y := _clean x N in
  (Z.of_nat (List.length (split y)) <= N)%Z ->
  (forall ln, In ln (splitlines y) -> match_at marker_re 0 ln = None) ->
  _clean (Some y) N = y.
Proof.
  cbv zeta. intros Hwords Hmarkers.
  assert (Hfix : _denumerate (Some (_clean x N)) = _clean x N).
  { apply denumerate_fix; [apply clean_shape_clean | exact Hmarkers]. }
  unfold _clean at 1. rewrite Hfix.
  destruct (Z.of_nat (List.length (split (_clean x N))) >? N)%Z eqn:E;
    [ | reflexivity].
  apply Z.gtb_lt in E. lia.
Qed.

Lemma C8_clean_idempotent_witness :
  _clean (Some (_clean (Some (py "1. a b c d e")) 3)) 3
  = _clean (Some (py "1. a b c d e")) 3.
Proof.
  refine (@C8_clean_idempotent (Some (py "1. a b c d e")) 3 _ _).
  - vm_compute. discriminate.
  - intros ln H. vm_compute in H. destruct H as [<- | []].
    vm_compute. reflexivity.
Defined.

(** C9, as stated, fails: the text "1." contains one whitespace-delimited
    word, yet with budget 0 the program returns the empty string, because
    the marker is removed before the words are counted. *)
Lemma C9_counterexample :
  split (py "1.") = [py "1."]
  /\ _clean (Some (py "1.")) 0 = []
  /\ _clean (Some (py "1.")) 0 <> py "...".
Proof.
  split; [reflexivity | split; [reflexivity | ]].
  intros H. vm_compute in H. discriminate H.
Qed.

(** C9, amended: for every text whose cleaned form (after marker removal,
    stripping and blank-line collapsing) contains at least one word,
    [_clean text 0] is exactly "...", which counts as one word and so
    exceeds the budget of zero. *)
Theorem C9_zero_budget (text : option pystr) :
  split (_denumerate text) <> [] ->
  _clean text 0 = py "..."
  /\ split (py "...") = [py "..."]
  /\ (Z.of_nat (List.length (split (_clean text 0))) > 0)%Z.
Proof.
  intros Hw.
  assert (E : _clean text 0 = py "...").
  { unfold _clean.
    destruct (split (_denumerate text)) as [ | w ws]; [congruence | ].
    reflexivity. }
  rewrite E. repeat split.
Qed.

Lemma C9_zero_budget_witness :
  _clean (Some (py "1. foo")) 0 = py "...".
Proof.
  refine (proj1 (@C9_zero_budget (Some (py "1. foo")) _)).
  vm_compute. discriminate.
Defined.

(** C10: one application removes at most one marker from the start of a
    line, so [_clean] is not idempotent in general: "1. 2. foo" with budget
    120 gives "2. foo", and cleaning that again gives "foo". *)
Theorem C10_not_idempotent_in_general :
  _clean (Some (py "1. 2. foo")) 120 = py "2. foo"
  /\ _clean (Some (_clean (Some (py "1. 2. foo")) 120)) 120 = py "foo"
  /\ (exists x N, _clean (Some (_clean x N)) N <> _clean x N)
  /\ (forall ln,
         head_in isspace ln = false ->
         sub marker_re [] (py "1. " ++ ln) = ln)
  /\ (forall ln,
         sub marker_re [] ln = ln
         \/ exists m, is_marker m /\ ln = m ++ sub marker_re [] ln).
Proof.
  split; [vm_compute; reflexivity | ].
  split; [vm_compute; reflexivity | ].
  split; [ | split].
  - exists (Some (py "1. 2. foo")), 120%Z.
    intros H. vm_compute in H. discriminate H.
  - intros ln Hln. rewrite sub_marker.
    change (py "1. " ++ ln) with ([] ++ py "1" ++ 0x2E%N :: py " " ++ ln).
    now rewrite lead_marker_numbered.
  - apply sub_marker_once.
Qed.

(** ** Beyond the chat core: dictionaries *)

Import Portal.

Section DictFacts.

Lemma str_eqb_eq a b : str_eqb a b = true <-> a = b.
Proof.
  revert b. induction a as [ | x a IH]; intros [ | y b]; simpl;
    try (split; [discriminate | discriminate]); [tauto | ].
  rewrite andb_true_iff, N.eqb_eq, IH. split.
  - intros [-> ->]. reflexivity.
  - intros H. injection H as -> ->. auto.
Qed.

Lemma str_eqb_refl a : str_eqb a a = true.
Proof. now apply str_eqb_eq. Qed.

Lemma str_eqb_neq a b : a <> b -> str_eqb a b = false.
Proof.
  intros H. destruct (str_eqb a b) eqn:E; [ | reflexivity].
  apply str_eqb_eq in E. contradiction.
Qed.

Variable V : Type.

Lemma dict_get_set_same (d : dict V) k v : dict_get (dict_set d k v) k = Some v.
Proof.
  induction d as [ | [k' v'] d IH]; simpl.
  - now rewrite str_eqb_refl.
  - destruct (str_eqb k' k) eqn:E; simpl; now rewrite E.
Qed.

Lemma dict_get_set_other (d : dict V) k v k' :
  k' <> k -> dict_get (dict_set d k v) k' = dict_get d k'.
Proof.
  intros Hne. induction d as [ | [k0 v0] d IH]; simpl.
  - rewrite str_eqb_neq; auto.
  - destruct (str_eqb k0 k) eqn:E; simpl.
    + apply str_eqb_eq in E. subst k0.
      rewrite str_eqb_neq; auto.
    + now rewrite IH.
Qed.

Lemma dict_set_keys (d : dict V) k v :
  List.map fst (dict_set d k v)
  = if dict_mem d k then List.map fst d else List.map fst d ++ [k].
Proof.
  unfold dict_mem. induction d as [ | [k0 v0] d IH]; simpl; [reflexivity | ].
  destruct (str_eqb k0 k) eqn:E; simpl; [reflexivity | ].
  rewrite IH. now destruct (dict_get d k).
Qed.

Lemma dict_mem_set (d : dict V) k v k' :
  dict_mem d k' = true -> dict_mem (dict_set d k v) k' = true.
Proof.
  unfold dict_mem. intros H.
  destruct (list_eq_dec N.eq_dec k' k) as [-> | Hne].
  - now rewrite dict_get_set_same.
  - now rewrite dict_get_set_other.
Qed.

End DictFacts.

(** ** Job listings *)

Section Vagas.

Lemma fold_max_ge ids :
  forall i, (i <= fold_left Z.max ids i)%Z
            /\ (forall j, In j ids -> (j <= fold_left Z.max ids i)%Z).
Proof.
  induction ids as [ | a ids IH]; intros i; simpl.
  - split; [lia | tauto].
  - destruct (IH (Z.max i a)) as [H1 H2]. split; [lia | ].
    intros j [<- | Hj]; [lia | auto].
Qed.

Lemma next_id_above vagas v :
  In v vagas -> (vaga_id v < _next_id vagas)%Z.
Proof.
  unfold _next_id. intros H. apply (in_map vaga_id) in H.
  destruct (List.map vaga_id vagas) as [ | i ids]; [destruct H | ].
  destruct (fold_max_ge ids i) as [H1 H2].
  destruct H as [<- | H]; [lia | ]. specialize (H2 _ H). lia.
Qed.

Lemma filter_length_all (A : Type) (f : A -> bool) l :
  List.length (List.filter f l) = List.length l <-> forallb f l = true.
Proof.
  induction l as [ | a l IH]; simpl; [tauto | ].
  pose proof (filter_length_le f l) as Hle.
  destruct (f a); simpl.
  - rewrite <- IH. lia.
  - split; [lia | discriminate].
Qed.

Lemma filter_all (A : Type) (f : A -> bool) l :
  forallb f l = true -> List.filter f l = l.
Proof.
  induction l as [ | a l IH]; simpl; [reflexivity | ].
  intros H. apply andb_true_iff in H. destruct H as [Ha Hl].
  rewrite Ha. f_equal. auto.
Qed.

End Vagas.

(** An administrator's session. *)
Lemma admin_required_pass path view s st :
  logged_in s = true -> admin s = true ->
  admin_required path view s st = view s st.
Proof. unfold admin_required. now intros -> ->. Qed.

Lemma update_first_ids data vid vagas v vagas' :
  update_first data vid vagas = Some (v, vagas') ->
  List.map vaga_id vagas' = List.map vaga_id vagas
  /\ vaga_id v = vid /\ In v vagas'
  /\ List.filter (fun x => negb (vaga_id x =? vid)%Z) vagas'
     = List.filter (fun x => negb (vaga_id x =? vid)%Z) vagas.
Proof.
  revert v vagas'. induction vagas as [ | x rest IH]; intros v vagas' H;
    [discriminate | ].
  cbn [update_first] in H. destruct (vaga_id x =? vid)%Z eqn:E.
  - injection H as <- <-. apply Z.eqb_eq in E.
    repeat split; auto.
    + now left.
    + cbn [List.filter vaga_id]. apply Z.eqb_eq in E. now rewrite E.
  - destruct (update_first data vid rest) as [[v' rest'] | ]; [ | discriminate].
    injection H as <- <-. destruct (IH _ _ eq_refl) as (H1 & H2 & H3 & H4).
    repeat split; auto.
    + simpl. now rewrite H1.
    + now right.
    + cbn [List.filter]. now rewrite E, H4.
Qed.


Lemma filter_ids_notin vid vagas :
  ~ In vid (List.map vaga_id (List.filter (fun v => negb (vaga_id v =? vid)%Z)
                                          vagas)).
Proof.
  intros H. apply in_map_iff in H. destruct H as (v & Hv & Hin).
  apply filter_In in Hin. destruct Hin as [_ Hf].
  apply negb_true_iff, Z.eqb_neq in Hf. auto.
Qed.

Lemma forallb_other_ids vid vagas :
  forallb (fun v => negb (vaga_id v =? vid)%Z) vagas = true
  <-> ~ In vid (List.map vaga_id vagas).
Proof.
  rewrite forallb_forall. split.
  - intros H Hin. apply in_map_iff in Hin. destruct Hin as (v & Hv & Hin).
    specialize (H v Hin). apply negb_true_iff, Z.eqb_neq in H. auto.
  - intros H v Hin. apply negb_true_iff, Z.eqb_neq. intros E.
    apply H. apply in_map_iff. eauto.
Qed.

Lemma NoDup_filter_ids (f : vaga -> bool) vagas :
  NoDup (List.map vaga_id vagas) ->
  NoDup (List.map vaga_id (List.filter f vagas)).
Proof.
  induction vagas as [ | v rest IH]; simpl; [auto | ].
  intros H. inversion H as [ | ? ? Hnot Hrest]; subst.
  destruct (f v); simpl; auto.
  constructor; auto. intros Hin. apply Hnot.
  apply in_map_iff in Hin. destruct Hin as (x & Hx & Hin).
  apply filter_In in Hin. apply in_map_iff. exists x. tauto.
Qed.

Lemma load_save_vagas st l : _load_vagas (_save_vagas st l) = l.
Proof. reflexivity. Qed.

Lemma next_id_notin vagas :
  ~ In (_next_id vagas) (List.map vaga_id vagas).
Proof.
  intros H. apply in_map_iff in H. destruct H as (v & Hv & Hin).
  apply next_id_above in Hin. lia.
Qed.

(** [_next_id] returns an id above every id in the list, hence one that no
    listing carries. *)
Theorem next_id_fresh (vagas : list vaga) :
  (forall v, In v vagas -> (vaga_id v < _next_id vagas)%Z)
  /\ ~ In (_next_id vagas) (List.map vaga_id vagas).
Proof.
  split; [intros v; apply next_id_above | apply next_id_notin].
Qed.



(** For an administrator, [api_vagas_delete] answers 404 and changes nothing
    exactly when no stored listing has the id; otherwise it answers 200 and
    stores the listings with other ids, in their order: none with the id is
    left, whether one or several carried it. *)
Theorem delete_removes_the_id (path : pystr) (vid : Z)
        (s : session) (st : store) :
  logged_in s = true -> admin s = true ->
  let out := api_vagas_delete path vid s st in
  let vagas := _load_vagas st in
  (~ In vid (List.map vaga_id vagas) ->
   resp_of out = Json 404 (JError (py "Vaga não encontrada."))
   /\ store_of out = st)
  /\ (In vid (List.map vaga_id vagas) ->
      resp_of out = Json 200 JOk
      /\ _load_vagas (store_of out)
         = List.filter (fun v => negb (vaga_id v =? vid)%Z) vagas
      /\ ~ In vid (List.map vaga_id (_load_vagas (store_of out)))
      /\ (forall v, In v vagas -> vaga_id v <> vid ->
                    In v (_load_vagas (store_of out)))).
Proof.
  intros Hl Ha. cbv zeta. unfold api_vagas_delete.
  rewrite admin_required_pass by assumption.
  unfold api_vagas_delete_view.
  set (keep := fun v : vaga => negb (vaga_id v =? vid)%Z).
  destruct (Nat.eqb (List.length (List.filter keep (_load_vagas st)))
                    (List.length (_load_vagas st))) eqn:E.
  - apply Nat.eqb_eq, filter_length_all, forallb_other_ids in E.
    split; [intros _; split; reflexivity | tauto].
  - apply Nat.eqb_neq in E.
    split.
    + intros H. apply forallb_other_ids, filter_length_all in H. tauto.
    + intros _. unfold resp_of, store_of. cbn [fst snd].
      split; [reflexivity | ]. split; [reflexivity | ].
      split; [apply filter_ids_notin | ].
      intros v Hin Hv. apply filter_In. split; [exact Hin | ].
      unfold keep. now apply negb_true_iff, Z.eqb_neq.
Qed.

Lemma delete_removes_the_id_witness :
  resp_of (api_vagas_delete (py "/api/admin/vagas/4") 4 Sample.ana
                            Sample.with_vagas)
  = Json 200 JOk
  /\ resp_of (api_vagas_delete (py "/api/admin/vagas/7") 7 Sample.ana
                               Sample.with_vagas)
     = Json 404 (JError (py "Vaga não encontrada.")).
Proof.
  split.
  - refine (proj1 (proj2 (@delete_removes_the_id
                            (py "/api/admin/vagas/4") 4 Sample.ana
                            Sample.with_vagas eq_refl eq_refl) _)).
    vm_compute. auto.
  - refine (proj1 (proj1 (@delete_removes_the_id
                            (py "/api/admin/vagas/7") 7 Sample.ana
                            Sample.with_vagas eq_refl eq_refl) _)).
    vm_compute. intros [H | [H | []]]; discriminate H.
Defined.

(** Deleting a listing right after creating it gives back the list of
    listings there was before. *)
Theorem create_then_delete_restores (p1 p2 : pystr)
        (body : option (dict pystr)) (s : session) (st : store) (v : vaga) :
  let created := api_vagas_create p1 body s st in
  resp_of created = Json 201 (JVaga v) ->
  let deleted :=
    api_vagas_delete p2 (vaga_id v) (session_of created) (store_of created) in
  resp_of deleted = Json 200 JOk
  /\ _load_vagas (store_of deleted) = _load_vagas st.
Proof.
  cbv zeta. unfold api_vagas_create, api_vagas_delete, admin_required.
  destruct (negb (logged_in s)) eqn:Hl; [discriminate | ].
  destruct (negb (admin s)) eqn:Ha; [discriminate | ].
  unfold api_vagas_create_view.
  destruct (is_empty (field (json_body body) "titulo")
            || is_empty (field (json_body body) "empresa"));
    [discriminate | ].
  unfold resp_of, session_of, store_of. cbn [fst snd].
  intros H. injection H as <-. rewrite Hl, Ha.
  unfold api_vagas_delete_view. cbn [vaga_id].
  rewrite !load_save_vagas.
  set (old := _load_vagas st).
  set (new := {| vaga_id := _next_id old |}).
  assert (Hf : List.filter (fun x => negb (vaga_id x =? _next_id old)%Z)
                           (old ++ [new]) = old).
  { rewrite filter_app. cbn [List.filter vaga_id new].
    rewrite Z.eqb_refl. cbn [negb]. rewrite app_nil_r.
    apply filter_all, forallb_other_ids, next_id_notin. }
  rewrite Hf.
  assert (Hn : Nat.eqb (List.length old) (List.length (old ++ [new])) = false).
  { apply Nat.eqb_neq. rewrite length_app. simpl. lia. }
  rewrite Hn. cbn [fst snd]. split; [reflexivity | apply load_save_vagas].
Qed.

Lemma create_then_delete_restores_witness :
  _load_vagas
    (store_of
       (api_vagas_delete (py "/api/admin/vagas/5") 5 Sample.ana
          (store_of (api_vagas_create (py "/api/admin/vagas")
                                      (Sample.vaga_body "Dev" "Acme")
                                      Sample.ana Sample.with_vagas))))
  = Sample.two_vagas.
Proof.
  exact (proj2 (@create_then_delete_restores
                  (py "/api/admin/vagas") (py "/api/admin/vagas/5")
                  (Sample.vaga_body "Dev" "Acme") Sample.ana
                  Sample.with_vagas _ eq_refl)).
Defined.


Lemma update_first_app data vid old rest :
  ~ In vid (List.map vaga_id old) ->
  update_first data vid (old ++ rest)
  = match update_first data vid rest with
    | Some (v, rest') => Some (v, old ++ rest')
    | None => None
    end.
Proof.
  induction old as [ | x old IH]; intros H.
  - simpl. now destruct (update_first data vid rest) as [[v r] | ].
  - cbn [app update_first]. simpl in H.
    assert (E : (vaga_id x =? vid)%Z = false) by (apply Z.eqb_neq; tauto).
    rewrite E, IH by tauto.
    now destruct (update_first data vid rest) as [[v r] | ].
Qed.

Lemma NoDup_snoc (A : Type) (l : list A) x :
  NoDup l -> ~ In x l -> NoDup (l ++ [x]).
Proof.
  induction l as [ | a l IH]; simpl; intros Hn Hx.
  - constructor; [tauto | constructor].
  - inversion Hn as [ | ? ? Ha Hl]; subst. constructor.
    + rewrite in_app_iff. simpl. intros [H | [H | []]]; [tauto | ].
      subst. tauto.
    + apply IH; tauto.
Qed.

Lemma strip_idem s : strip (strip s) = strip s.
Proof. apply strip_fix; [apply strip_head | apply strip_last]. Qed.



(** Whoever calls them, the three listing endpoints keep the ids of the
    stored listings pairwise distinct. *)
Theorem listing_ids_stay_distinct (path : pystr) (vid : Z)
        (body : option (dict pystr)) (s : session) (st : store) :
  NoDup (List.map vaga_id (_load_vagas st)) ->
  NoDup (List.map vaga_id
                  (_load_vagas (store_of (api_vagas_create path body s st))))
  /\ NoDup (List.map vaga_id
                     (_load_vagas
                        (store_of (api_vagas_update path vid body s st))))
  /\ NoDup (List.map vaga_id
                     (_load_vagas (store_of (api_vagas_delete path vid s st)))).
Proof.
  intros Hn.
  unfold api_vagas_create, api_vagas_update, api_vagas_delete, admin_required.
  destruct (negb (logged_in s)); [repeat split; exact Hn | ].
  destruct (negb (admin s)); [repeat split; exact Hn | ].
  split; [ | split].
  - unfold api_vagas_create_view.
    destruct (is_empty (field (json_body body) "titulo")
              || is_empty (field (json_body body) "empresa")); [exact Hn | ].
    unfold store_of. cbn [snd]. rewrite load_save_vagas, map_app.
    apply NoDup_snoc; [exact Hn | apply next_id_notin].
  - unfold api_vagas_update_view.
    destruct (update_first (json_body body) vid (_load_vagas st))
      as [[v vagas'] | ] eqn:E; [ | exact Hn].
    unfold store_of. cbn [snd]. rewrite load_save_vagas.
    destruct (update_first_ids _ _ _ E) as (H1 & _). now rewrite H1.
  - unfold api_vagas_delete_view.
    destruct (Nat.eqb _ _); [exact Hn | ].
    unfold store_of. cbn [snd]. rewrite load_save_vagas.
    now apply NoDup_filter_ids.
Qed.

Lemma listing_ids_stay_distinct_witness :
  NoDup (List.map vaga_id
                  (_load_vagas
                     (store_of (api_vagas_create
                                  (py "/api/admin/vagas")
                                  (Sample.vaga_body "Dev" "Acme")
                                  Sample.ana Sample.with_vagas)))).
Proof.
  refine (proj1 (@listing_ids_stay_distinct
                   (py "/api/admin/vagas") 0
                   (Sample.vaga_body "Dev" "Acme")
                   Sample.ana Sample.with_vagas _)).
  vm_compute. repeat constructor; simpl; intuition discriminate.
Defined.

(** An update that carries none of the three fields (absent, or empty)
    returns a listing made by [api_vagas_create] as it is and leaves the
    stored list unchanged. *)
Theorem update_without_fields_keeps_created (p1 p2 : pystr)
        (body body2 : option (dict pystr)) (s : session) (st : store)
        (v : vaga) :
  let created := api_vagas_create p1 body s st in
  resp_of created = Json 201 (JVaga v) ->
  or_empty (dict_get (json_body body2) (py "titulo")) = [] ->
  or_empty (dict_get (json_body body2) (py "empresa")) = [] ->
  or_empty (dict_get (json_body body2) (py "url")) = [] ->
  let updated :=
    api_vagas_update p2 (vaga_id v) body2
                     (session_of created) (store_of created) in
  resp_of updated = Json 200 (JVaga v)
  /\ _load_vagas (store_of updated) = _load_vagas (store_of created).
Proof.
  cbv zeta. unfold api_vagas_create, api_vagas_update, admin_required.
  destruct (negb (logged_in s)) eqn:Hl; [discriminate | ].
  destruct (negb (admin s)) eqn:Ha; [discriminate | ].
  unfold api_vagas_create_view.
  destruct (is_empty (field (json_body body) "titulo")
            || is_empty (field (json_body body) "empresa"));
    [discriminate | ].
  unfold resp_of, session_of, store_of. cbn [fst snd].
  intros H Ht He Hu. injection H as <-. rewrite Hl, Ha.
  unfold api_vagas_update_view. rewrite load_save_vagas. cbn [vaga_id].
  rewrite update_first_app by apply next_id_notin.
  cbn [update_first vaga_id titulo empresa url]. rewrite Z.eqb_refl.
  unfold or_else. rewrite Ht, He, Hu. cbn [is_empty].
  unfold field. rewrite !strip_idem. cbn [fst snd].
  rewrite load_save_vagas. split; reflexivity.
Qed.

Lemma update_without_fields_keeps_created_witness :
  _load_vagas
    (store_of
       (api_vagas_update (py "/api/admin/vagas/5") 5 None Sample.ana
          (store_of (api_vagas_create (py "/api/admin/vagas")
                                      (Sample.vaga_body " Dev " "Acme")
                                      Sample.ana Sample.with_vagas))))
  = _load_vagas
      (store_of (api_vagas_create (py "/api/admin/vagas")
                                  (Sample.vaga_body " Dev " "Acme")
                                  Sample.ana Sample.with_vagas)).
Proof.
  exact (proj2 (@update_without_fields_keeps_created
                  (py "/api/admin/vagas") (py "/api/admin/vagas/5")
                  (Sample.vaga_body " Dev " "Acme") None Sample.ana
                  Sample.with_vagas _ eq_refl eq_refl eq_refl eq_refl)).
Defined.



(** ** Guards and accounts *)

(** Without an administrator's session the four administration endpoints
    change nothing: a visitor who is not signed in is sent to the login page
    with the path to come back to, a signed-in user who is no administrator
    gets 403. *)
Theorem admin_endpoints_refuse_others (rt : platform) (path : pystr)
        (vid : Z) (section : pystr) (body : option (dict pystr))
        (s : session) (st : store) (out : outcome) :
  logged_in s && admin s = false ->
  In out [ api_vagas_create path body s st;
           api_vagas_update path vid body s st;
           api_vagas_delete path vid s st;
           api_home_update rt path section body s st ] ->
  store_of out = st
  /\ ((logged_in s = false /\ resp_of out = Redirect (ToLogin (Some path)))
      \/ (logged_in s = true
          /\ resp_of out = Json 403 (JError (py "Acesso restrito ao admin.")))).
Proof.
  intros Hs Hin.
  assert (Hg : forall view,
             store_of (admin_required path view s st) = st
             /\ ((logged_in s = false
                  /\ resp_of (admin_required path view s st)
                     = Redirect (ToLogin (Some path)))
                 \/ (logged_in s = true
                     /\ resp_of (admin_required path view s st)
                        = Json 403 (JError (py "Acesso restrito ao admin."))))).
  { intros view. unfold admin_required.
    destruct (logged_in s); cbn [negb].
    - cbn [andb] in Hs. rewrite Hs. cbn [negb]. split; [reflexivity | ].
      right. split; reflexivity.
    - split; [reflexivity | ]. left. split; reflexivity. }
  destruct Hin as [<- | [<- | [<- | [<- | []]]]]; apply Hg.
Qed.

Lemma admin_endpoints_refuse_others_witness :
  store_of (api_vagas_delete (py "/api/admin/vagas/1") 1 Sample.bia
                             Sample.with_vagas)
  = Sample.with_vagas.
Proof.
  refine (proj1 (@admin_endpoints_refuse_others
                   Sample.toy (py "/api/admin/vagas/1") 1 [] None
                   Sample.bia Sample.with_vagas _ eq_refl _)).
  right. right. left. reflexivity.
Defined.

Lemma login_cases (rt : platform)
        (method : http_method) (form : dict pystr) (next : option pystr)
        (s : session) (st : store) :
  let out := login rt method form next s st in
  let email := lower rt (field form "email") in
  let senha := field form "senha" in
  let granted :=
    method = POST /\ email <> [] /\ senha <> []
    /\ exists u, dict_get (_load_users st) email = Some u
                 /\ check_password_hash rt (senha_hash u) senha = true in
  store_of out = st
  /\ (granted ->
      user_email (session_of out) = Some email
      /\ is_admin (session_of out) = Some (str_in email (ADMIN_EMAILS rt))
      /\ resp_of out
         = Redirect (if is_empty (or_empty next) then ToPerfil
                     else ToUrl (or_empty next)))
  /\ (~ granted ->
      user_email (session_of out) = user_email s
      /\ is_admin (session_of out) = is_admin s
      /\ resp_of out
         = match method with
           | POST => Redirect (ToLogin None)
           | GET => Html LoginHtml
           end).
Proof.
  cbv zeta. unfold login.
  destruct method.
  { split; [reflexivity | split; [ | intros _; repeat split]].
    intros (H & _); discriminate. }
  destruct (lower rt (field form "email")) as [ | c e] eqn:Ee; cbn [is_empty orb].
  { split; [reflexivity | split; [ | intros _; repeat split]].
    intros (_ & H & _). congruence. }
  destruct (field form "senha") as [ | d p] eqn:Ep; cbn [is_empty].
  { split; [reflexivity | split; [ | intros _; repeat split]].
    intros (_ & _ & H & _). congruence. }
  destruct (dict_get (_load_users st) (c :: e)) as [u | ] eqn:Eu.
  - destruct (check_password_hash rt (senha_hash u) (d :: p)) eqn:Ec;
      cbn [negb].
    + split; [reflexivity | split; [intros _; repeat split | ]].
      intros H. exfalso. apply H. repeat split; try discriminate. eauto.
    + split; [reflexivity | split; [ | intros _; repeat split]].
      intros (_ & _ & _ & u' & Hu & Hc). congruence.
  - cbn [negb]. split; [reflexivity | split; [ | intros _; repeat split]].
    intros (_ & _ & _ & u' & Hu & _). discriminate.
Qed.

(** [login] never writes to the files.  It signs the visitor in, as the
    lowercased trimmed e-mail and with the administrator flag that
    [ADMIN_EMAILS] gives, exactly when the request is a POST, e-mail and
    password are not blank, the e-mail is registered and the password
    check passes on the stored hash, and then redirects to the [next]
    query value as it came, or to the profile page when there is none; in
    every other case the identity held by the session stays as it was and a
    POST is sent back to the login page. *)
Theorem login_signs_in_on_password_match (rt : platform)
        (method : http_method) (form : dict pystr) (next : option pystr)
        (s : session) (st : store) :
  let out := login rt method form next s st in
  let email := lower rt (field form "email") in
  let senha := field form "senha" in
  let granted :=
    method = POST /\ email <> [] /\ senha <> []
    /\ exists u, dict_get (_load_users st) email = Some u
                 /\ check_password_hash rt (senha_hash u) senha = true in
  store_of out = st
  /\ (granted ->
      user_email (session_of out) = Some email
      /\ is_admin (session_of out) = Some (str_in email (ADMIN_EMAILS rt))
      /\ resp_of out
         = Redirect (if is_empty (or_empty next) then ToPerfil
                     else ToUrl (or_empty next)))
  /\ (~ granted ->
      user_email (session_of out) = user_email s
      /\ is_admin (session_of out) = is_admin s
      /\ resp_of out
         = match method with
           | POST => Redirect (ToLogin None)
           | GET => Html LoginHtml
           end).
Proof. apply login_cases. Qed.

(** [cadastro] never touches an account or a profile that exists: whatever
    the request, every registered e-mail keeps its name and password hash,
    and every stored profile stays as it is. *)
Theorem cadastro_keeps_existing_accounts (rt : platform)
        (method : http_method) (form : dict pystr) (salt : pystr)
        (s : session) (st : store) :
  let out := cadastro rt method form salt s st in
  (forall k u, dict_get (_load_users st) k = Some u ->
               dict_get (_load_users (store_of out)) k = Some u)
  /\ (forall k p, dict_get (_load_profiles st) k = Some p ->
                  dict_get (_load_profiles (store_of out)) k = Some p).
Proof.
  cbv zeta. unfold cadastro. destruct method; [split; auto | ].
  destruct (is_empty (field form "nome") || is_empty (lower rt (field form "email"))
            || is_empty (field form "senha")); [split; auto | ].
  destruct (Nat.ltb _ 6); [split; auto | ].
  destruct (dict_mem (_load_users st) (lower rt (field form "email"))) eqn:Em;
    [split; auto | ].
  unfold store_of. cbn [snd]. split.
  - intros k u Hk. cbn.
    rewrite dict_get_set_other; [exact Hk | ].
    intros ->. unfold dict_mem in Em. now rewrite Hk in Em.
  - intros k p Hk. cbn. unfold dict_setdefault.
    change (_load_profiles (_save_users st ?d)) with (_load_profiles st).
    destruct (dict_mem (_load_profiles st) (lower rt (field form "email")))
             eqn:Ep; [exact Hk | ].
    rewrite dict_get_set_other; [exact Hk | ].
    intros ->. unfold dict_mem in Ep. now rewrite Hk in Ep.
Qed.

Lemma is_empty_false s : s <> [] -> is_empty s = false.
Proof. destruct s; [congruence | reflexivity]. Qed.

Lemma load_save_profiles st d : _load_profiles (_save_profiles st d) = d.
Proof. reflexivity. Qed.

Ltac refused :=
  intros _; unfold resp_of, session_of, store_of; cbn [fst snd];
  repeat (split; [reflexivity | ]); discriminate.

Lemma cadastro_cases (rt : platform) (form : dict pystr)
        (salt : pystr) (s : session) (st : store) :
  let out := cadastro rt POST form salt s st in
  let nome := field form "nome" in
  let email := lower rt (field form "email") in
  let senha := field form "senha" in
  let acceptable :=
    nome <> [] /\ email <> [] /\ 6 <= List.length senha
    /\ dict_get (_load_users st) email = None in
  (acceptable ->
   resp_of out = Redirect ToPerfil
   /\ dict_get (_load_users (store_of out)) email
      = Some {| Portal.nome := nome;
                senha_hash := generate_password_hash rt senha salt |}
   /\ dict_mem (_load_profiles (store_of out)) email = true
   /\ user_email (session_of out) = Some email
   /\ is_admin (session_of out) = Some (str_in email (ADMIN_EMAILS rt)))
  /\ (~ acceptable ->
      store_of out = st
      /\ user_email (session_of out) = user_email s
      /\ is_admin (session_of out) = is_admin s
      /\ resp_of out <> Redirect ToPerfil).
Proof.
  cbv zeta. unfold cadastro.
  destruct (field form "nome") as [ | c0 n0] eqn:En; cbn [is_empty orb].
  { split; [intros (H & _); congruence | refused]. }
  destruct (lower rt (field form "email")) as [ | c1 e1] eqn:Ee;
    cbn [is_empty orb].
  { split; [intros (_ & H & _); congruence
           | refused]. }
  destruct (field form "senha") as [ | c2 p2] eqn:Ep; cbn [is_empty].
  { split; [intros (_ & _ & H & _); simpl in H; lia
           | refused]. }
  destruct (Nat.ltb (List.length (c2 :: p2)) 6) eqn:El.
  { apply Nat.ltb_lt in El.
    split; [intros (_ & _ & H & _); lia
           | refused]. }
  apply Nat.ltb_ge in El.
  destruct (dict_get (_load_users st) (c1 :: e1)) as [u | ] eqn:Eu.
  { assert (Em : dict_mem (_load_users st) (c1 :: e1) = true)
      by (unfold dict_mem; now rewrite Eu).
    rewrite Em.
    split; [intros (_ & _ & _ & H); discriminate
           | refused]. }
  assert (Em : dict_mem (_load_users st) (c1 :: e1) = false)
    by (unfold dict_mem; now rewrite Eu).
  rewrite Em.
  split.
  - intros _. unfold resp_of, session_of, store_of. cbn [fst snd].
    split; [reflexivity | ]. split.
    + cbn. apply dict_get_set_same.
    + split; [ | split; reflexivity].
      rewrite load_save_profiles. unfold dict_setdefault.
      destruct (dict_mem (_load_profiles (_save_users st _)) (c1 :: e1))
               eqn:E; [exact E | ].
      unfold dict_mem. now rewrite dict_get_set_same.
  - intros H. exfalso. apply H. repeat split; try discriminate; assumption.
Qed.

(** A registration goes through exactly when name, e-mail and password are
    not blank, the password has six characters or more and the e-mail is
    not registered yet.  Then the account is stored under the lowercased
    trimmed e-mail with the hash of the trimmed password, a profile exists
    for it, and the session is signed in as that e-mail.  Otherwise the
    files and the identity held by the session stay as they were. *)
Theorem cadastro_registers_new_account (rt : platform) (form : dict pystr)
        (salt : pystr) (s : session) (st : store) :
  let out := cadastro rt POST form salt s st in
  let nome := field form "nome" in
  let email := lower rt (field form "email") in
  let senha := field form "senha" in
  let acceptable :=
    nome <> [] /\ email <> [] /\ 6 <= List.length senha
    /\ dict_get (_load_users st) email = None in
  (acceptable ->
   resp_of out = Redirect ToPerfil
   /\ dict_get (_load_users (store_of out)) email
      = Some {| Portal.nome := nome;
                senha_hash := generate_password_hash rt senha salt |}
   /\ dict_mem (_load_profiles (store_of out)) email = true
   /\ user_email (session_of out) = Some email
   /\ is_admin (session_of out) = Some (str_in email (ADMIN_EMAILS rt)))
  /\ (~ acceptable ->
      store_of out = st
      /\ user_email (session_of out) = user_email s
      /\ is_admin (session_of out) = is_admin s
      /\ resp_of out <> Redirect ToPerfil).
Proof. apply cadastro_cases. Qed.

Lemma cadastro_registers_new_account_witness :
  user_email
    (session_of
       (cadastro Sample.toy POST
                 Sample.bia_form
                 (py "s4lt") anonymous initial_store))
  = Some (py "bia@uniceub.br").
Proof.
  refine (proj1 (proj2 (proj2 (proj2
            (proj1 (@cadastro_registers_new_account
                      Sample.toy
                      Sample.bia_form
                      (py "s4lt") anonymous initial_store) _))))).
  repeat split; try discriminate.
  vm_compute. repeat constructor.
Defined.

(** Whoever has just registered can sign in with the same form values,
    from any session, provided the password check accepts the hash that
    hashing produced (as werkzeug's pair of functions does). *)
Theorem register_then_login (rt : platform) (form : dict pystr)
        (salt : pystr) (s : session) (st : store)
        (next : option pystr) (s2 : session) :
  (forall pw sl,
      check_password_hash rt (generate_password_hash rt pw sl) pw = true) ->
  let registered := cadastro rt POST form salt s st in
  resp_of registered = Redirect ToPerfil ->
  let out := login rt POST form next s2 (store_of registered) in
  user_email (session_of out) = Some (lower rt (field form "email"))
  /\ logged_in (session_of out) = true.
Proof.
  intros Hhash. cbv zeta. intros Hreg.
  destruct (cadastro_cases rt form salt s st) as [Hyes Hno].
  cbv zeta in Hyes, Hno.
  assert (Hacc : field form "nome" <> []
                 /\ lower rt (field form "email") <> []
                 /\ 6 <= List.length (field form "senha")
                 /\ dict_get (_load_users st) (lower rt (field form "email"))
                    = None).
  { destruct (list_eq_dec N.eq_dec (field form "nome") []) as [E1 | E1];
      [exfalso; apply Hno; [tauto | exact Hreg] | ].
    destruct (list_eq_dec N.eq_dec (lower rt (field form "email")) [])
      as [E2 | E2]; [exfalso; apply Hno; [tauto | exact Hreg] | ].
    destruct (Nat.ltb (List.length (field form "senha")) 6) eqn:E3;
      [apply Nat.ltb_lt in E3; exfalso; apply Hno; [lia | exact Hreg] | ].
    apply Nat.ltb_ge in E3.
    destruct (dict_get (_load_users st) (lower rt (field form "email")))
      eqn:E4; [exfalso; apply Hno; [ | exact Hreg] | tauto].
    intros (_ & _ & _ & H). discriminate. }
  destruct (Hyes Hacc) as (_ & Hu & _).
  destruct (login_cases
              rt POST form next s2
              (store_of (cadastro rt POST form salt s st)))
    as (_ & Hgrant & _).
  cbv zeta in Hgrant.
  destruct Hacc as (_ & He & Hlen & _).
  assert (Hs : field form "senha" <> [])
    by (destruct (field form "senha"); [simpl in Hlen; lia | discriminate]).
  destruct Hgrant as (H1 & _).
  { repeat split; auto. eexists. split; [exact Hu | ]. cbn. apply Hhash. }
  split; [exact H1 | ].
  unfold logged_in. rewrite H1. cbn [or_empty].
  now rewrite is_empty_false.
Qed.

Lemma toy_hash_checks pw sl :
  check_password_hash Sample.toy
    (generate_password_hash Sample.toy pw sl) pw = true.
Proof.
  cbn. apply startswith_iff. exists sl. now rewrite <- app_assoc.
Qed.

Lemma register_then_login_witness :
  user_email
    (session_of
       (login Sample.toy POST Sample.bia_form None anonymous
              (store_of (cadastro Sample.toy POST Sample.bia_form (py "s4lt")
                                  anonymous initial_store))))
  = Some (py "bia@uniceub.br").
Proof.
  refine (proj1 (@register_then_login
                   Sample.toy Sample.bia_form (py "s4lt") anonymous
                   initial_store None anonymous toy_hash_checks _)).
  vm_compute. reflexivity.
Defined.

(** After [logout] the session opens no guarded endpoint: the profile page
    and the four administration endpoints all send the visitor to the login
    page and leave the state alone.  [logout] itself writes nothing. *)
Theorem logout_closes_guarded_endpoints (rt : platform) (path : pystr)
        (method : http_method) (form : dict pystr) (vid : Z)
        (section : pystr) (body : option (dict pystr))
        (s : session) (st st' : store) (out : outcome) :
  let s' := session_of (logout s st) in
  In out [ perfil rt path method form s' st';
           api_vagas_create path body s' st';
           api_vagas_update path vid body s' st';
           api_vagas_delete path vid s' st';
           api_home_update rt path section body s' st' ] ->
  store_of (logout s st) = st
  /\ resp_of out = Redirect (ToLogin (Some path))
  /\ store_of out = st'.
Proof.
  cbv zeta. intros Hin. split; [reflexivity | ].
  destruct Hin as [<- | [<- | [<- | [<- | [<- | []]]]]];
    split; reflexivity.
Qed.

Lemma logout_closes_guarded_endpoints_witness :
  resp_of (api_vagas_delete (py "/api/admin/vagas/1") 1
                            (session_of (logout Sample.ana Sample.with_vagas))
                            Sample.with_vagas)
  = Redirect (ToLogin (Some (py "/api/admin/vagas/1"))).
Proof.
  refine (proj1 (proj2 (@logout_closes_guarded_endpoints
                          Sample.toy (py "/api/admin/vagas/1") GET [] 1 []
                          None Sample.ana Sample.with_vagas
                          Sample.with_vagas _ _))).
  right. right. right. left. reflexivity.
Defined.

(** ** Profile *)

Lemma to_int_range rt v : (0 <= _to_int rt v <= 100)%Z.
Proof.
  unfold _to_int. destruct v as [text | ]; [ | lia].
  destruct (int_of_str rt text) as [n | ]; [ | lia].
  destruct (Z.ltb_spec n 0); [lia | ].
  destruct (n >? 100)%Z eqn:E; [lia | ].
  rewrite Z.gtb_ltb in E. apply Z.ltb_ge in E. lia.
Qed.

(** [_to_int] always lands in 0..100: an integer in that range is returned
    as it is, a smaller one gives 0, a larger one 100, and a missing or
    unreadable value gives 0. *)
Theorem to_int_clamps (rt : platform) (v : option pystr) :
  (0 <= _to_int rt v <= 100)%Z
  /\ (forall text n,
         v = Some text -> int_of_str rt text = Some n ->
         _to_int rt v = Z.max 0 (Z.min 100 n))
  /\ (forall text,
         v = Some text -> int_of_str rt text = None -> _to_int rt v = 0%Z)
  /\ (v = None -> _to_int rt v = 0%Z).
Proof.
  split; [apply to_int_range | ].
  unfold _to_int. split; [ | split].
  - intros text n -> ->.
    destruct (Z.ltb_spec n 0); [lia | ].
    destruct (n >? 100)%Z eqn:E.
    + apply Z.gtb_lt in E. lia.
    + rewrite Z.gtb_ltb in E. apply Z.ltb_ge in E. lia.
  - intros text -> ->. reflexivity.
  - intros ->. reflexivity.
Qed.


(** A signed-in user's POST to [perfil] stores a profile under the e-mail of
    the session, with that e-mail in it and every skill level within 0..100
    whatever the form carries; the profiles of all other e-mails, and the
    other files, stay as they were. *)
Theorem perfil_post_saves_own_profile (rt : platform) (path : pystr)
        (form : dict pystr) (s : session) (st : store) (e : pystr) :
  user_email s = Some e -> e <> [] ->
  let out := perfil rt path POST form s st in
  resp_of out = Redirect ToPerfil
  /\ (exists p,
         dict_get (_load_profiles (store_of out)) e = Some p
         /\ perfil_email p = e
         /\ perfil_nome p = field form "nome"
         /\ skills_in_range (skills p))
  /\ (forall k, k <> e ->
                dict_get (_load_profiles (store_of out)) k
                = dict_get (_load_profiles st) k)
  /\ USERS_JSON (store_of out) = USERS_JSON st
  /\ VAGAS_JSON (store_of out) = VAGAS_JSON st
  /\ HOME_JSON (store_of out) = HOME_JSON st.
Proof.
  intros He Hne. cbv zeta. unfold perfil, login_required, logged_in.
  rewrite He. cbn [or_empty]. rewrite (is_empty_false Hne). cbn [negb].
  unfold perfil_view. rewrite He.
  unfold resp_of, store_of. cbn [fst snd].
  split; [reflexivity | ]. split.
  - eexists. rewrite load_save_profiles. split; [apply dict_get_set_same | ].
    cbn [perfil_email perfil_nome skills]. split; [reflexivity | ].
    split; [reflexivity | ].
    unfold skills_in_range. cbn.
    repeat split; apply to_int_range.
  - split; [ | repeat split].
    intros k Hk. rewrite load_save_profiles.
    now apply dict_get_set_other.
Qed.

Lemma perfil_post_saves_own_profile_witness :
  exists p,
    dict_get
      (_load_profiles
         (store_of (perfil Sample.toy (py "/perfil") POST
                           (Sample.form_of [("nome", "Bia"); ("sk_dev", "70");
                                            ("sk_db", "x")]%string)
                           Sample.bia initial_store)))
      (py "bia@uniceub.br") = Some p
    /\ skills_in_range (skills p).
Proof.
  destruct (proj1 (proj2 (@perfil_post_saves_own_profile
                            Sample.toy (py "/perfil")
                            (Sample.form_of [("nome", "Bia"); ("sk_dev", "70");
                                             ("sk_db", "x")]%string)
                            Sample.bia initial_store (py "bia@uniceub.br")
                            eq_refl ltac:(discriminate))))
    as (p & H1 & _ & _ & H4).
  exists p. split; assumption.
Defined.

(** ** Home cards *)

Section HomeFacts.

Variable V : Type.

Lemma dict_get_app (d1 d2 : dict V) k :
  dict_get (d1 ++ d2) k
  = match dict_get d1 k with
    | Some v => Some v
    | None => dict_get d2 k
    end.
Proof.
  induction d1 as [ | [k0 v0] d1 IH]; simpl; [reflexivity | ].
  now destruct (str_eqb k0 k).
Qed.

Lemma dict_get_In (d : dict V) k v :
  dict_get d k = Some v -> In k (List.map fst d).
Proof.
  induction d as [ | [k0 v0] d IH]; simpl; [discriminate | ].
  destruct (str_eqb k0 k) eqn:E.
  - apply str_eqb_eq in E. auto.
  - auto.
Qed.

Lemma dict_get_notin (d : dict V) k :
  ~ In k (List.map fst d) -> dict_get d k = None.
Proof.
  intros H. destruct (dict_get d k) eqn:E; [ | reflexivity].
  apply dict_get_In in E. contradiction.
Qed.

Lemma In_dict_mem (d : dict V) k :
  In k (List.map fst d) -> dict_mem d k = true.
Proof.
  unfold dict_mem. induction d as [ | [k0 v0] d IH]; simpl; [tauto | ].
  intros [-> | H].
  - now rewrite str_eqb_refl.
  - destruct (str_eqb k0 k); [reflexivity | auto].
Qed.

(** In a dictionary, whose keys are distinct, the order of the items does
    not matter to a lookup. *)
Lemma dict_get_rev (d : dict V) k :
  NoDup (List.map fst d) -> dict_get (rev d) k = dict_get d k.
Proof.
  induction d as [ | [k0 v0] d IH]; intros Hn; [reflexivity | ].
  simpl in Hn. inversion Hn as [ | ? ? Hnot Hrest]; subst.
  cbn [rev]. rewrite dict_get_app, (IH Hrest). cbn [dict_get].
  destruct (str_eqb k0 k) eqn:E.
  - apply str_eqb_eq in E. subst k0.
    now rewrite (dict_get_notin _ _ Hnot).
  - now destruct (dict_get d k).
Qed.

(** [{**a, **b}]: the last item of [b] with the key, else the item of
    [a]. *)
Lemma dict_merge_get (b a : dict V) k :
  dict_get (dict_merge a b) k
  = match dict_get (rev b) k with
    | Some v => Some v
    | None => dict_get a k
    end.
Proof.
  unfold dict_merge. revert a.
  induction b as [ | [k0 v0] b IH]; intros a; [reflexivity | ].
  cbn [fold_left fst snd rev]. rewrite IH, dict_get_app. cbn [dict_get].
  destruct (dict_get (rev b) k); [reflexivity | ].
  destruct (str_eqb k0 k) eqn:E.
  - apply str_eqb_eq in E. subst k0. apply dict_get_set_same.
  - apply dict_get_set_other. intros ->. now rewrite str_eqb_refl in E.
Qed.

Lemma dict_set_NoDup (d : dict V) k v :
  NoDup (List.map fst d) -> NoDup (List.map fst (dict_set d k v)).
Proof.
  intros Hn. rewrite dict_set_keys.
  destruct (dict_mem d k) eqn:E; [exact Hn | ].
  apply NoDup_snoc; [exact Hn | ].
  intros H. apply In_dict_mem in H. congruence.
Qed.

Lemma dict_merge_NoDup (b a : dict V) :
  NoDup (List.map fst a) -> NoDup (List.map fst (dict_merge a b)).
Proof.
  unfold dict_merge. revert a.
  induction b as [ | [k0 v0] b IH]; intros a Hn; [exact Hn | ].
  cbn [fold_left]. apply IH. now apply dict_set_NoDup.
Qed.

Lemma dict_merge_mem (b a : dict V) k :
  dict_mem a k = true -> dict_mem (dict_merge a b) k = true.
Proof.
  unfold dict_merge. revert a.
  induction b as [ | [k0 v0] b IH]; intros a H; [exact H | ].
  cbn [fold_left]. apply IH. now apply dict_mem_set.
Qed.

Lemma dict_set_mem_keys (d : dict V) k v :
  dict_mem d k = true -> List.map fst (dict_set d k v) = List.map fst d.
Proof. intros H. now rewrite dict_set_keys, H. Qed.

End HomeFacts.

Lemma dict_get_map_values (A B : Type) (g : pystr * A -> B) (d : dict A) k :
  (forall k1 k2 v, str_eqb k1 k2 = true -> g (k1, v) = g (k2, v)) ->
  dict_get (List.map (fun kv => (fst kv, g kv)) d) k
  = match dict_get d k with
    | Some v => Some (g (k, v))
    | None => None
    end.
Proof.
  intros Hg. induction d as [ | [k0 v0] d IH]; simpl; [reflexivity | ].
  destruct (str_eqb k0 k) eqn:E; [ | exact IH].
  f_equal. now apply Hg.
Qed.

Lemma map_fst_pair (A B : Type) (g : pystr * A -> B) (d : dict A) :
  List.map fst (List.map (fun kv => (fst kv, g kv)) d) = List.map fst d.
Proof. rewrite map_map. apply map_ext. reflexivity. Qed.

Lemma load_home_get st k :
  dict_get (_load_home st) k
  = match dict_get (rev (file_cards st)) k with
    | Some c => Some (Fresh c)
    | None => if dict_mem (DEFAULT_HOME st) k then Some (Shared k) else None
    end.
Proof.
  unfold _load_home. rewrite dict_merge_get, <- map_rev.
  rewrite (dict_get_map_values (fun kv => Fresh (snd kv))) by reflexivity.
  destruct (dict_get (rev (file_cards st)) k); [reflexivity | ].
  rewrite (dict_get_map_values (fun kv : pystr * card => Shared (fst kv))).
  - unfold dict_mem. now destruct (dict_get (DEFAULT_HOME st) k).
  - intros k1 k2 v H. apply str_eqb_eq in H. now subst.
Qed.

Lemma home_values_get st home k :
  dict_get (home_values st home) k
  = match dict_get home k with
    | Some r => Some (deref st r)
    | None => None
    end.
Proof.
  unfold home_values.
  now rewrite (dict_get_map_values (fun kv => deref st (snd kv))).
Qed.

Lemma section_names_distinct :
  NoDup [py "vagas"; py "projetos"; py "eventos"].
Proof.
  repeat constructor; simpl; intuition discriminate.
Qed.

Lemma load_home_NoDup st :
  default_sections st -> NoDup (List.map fst (_load_home st)).
Proof.
  intros H. unfold _load_home. apply dict_merge_NoDup.
  rewrite map_fst_pair, H. apply section_names_distinct.
Qed.

Lemma valid_section_mem st sec :
  default_sections st ->
  str_in sec [py "vagas"; py "projetos"; py "eventos"] = true ->
  dict_mem (DEFAULT_HOME st) sec = true.
Proof.
  intros H Hin. apply In_dict_mem. rewrite H.
  unfold str_in in Hin. apply existsb_exists in Hin.
  destruct Hin as (x & Hx & E). apply str_eqb_eq in E. now subst.
Qed.

Lemma dict_mem_get (V : Type) (d : dict V) k :
  dict_mem d k = true -> exists v, dict_get d k = Some v.
Proof.
  unfold dict_mem. destruct (dict_get d k); [eauto | discriminate].
Qed.

Lemma dict_get_mem (V : Type) (d : dict V) k v :
  dict_get d k = Some v -> dict_mem d k = true.
Proof. unfold dict_mem. now intros ->. Qed.

(** The card with its two fields assigned. *)
Lemma card_fields (c : card) title text :
  dict_get (dict_set (dict_set c (py "title") title) (py "text") text)
           (py "title") = Some title
  /\ dict_get (dict_set (dict_set c (py "title") title) (py "text") text)
              (py "text") = Some text.
Proof.
  split.
  - rewrite dict_get_set_other by discriminate. apply dict_get_set_same.
  - apply dict_get_set_same.
Qed.

Lemma dict_get_none_iff (V : Type) (d : dict V) k :
  dict_get d k = None <-> ~ In k (List.map fst d).
Proof.
  split; [ | apply dict_get_notin].
  intros H Hin. apply In_dict_mem in Hin. unfold dict_mem in Hin.
  now rewrite H in Hin.
Qed.

Lemma dict_mem_rev (V : Type) (d : dict V) k :
  dict_get (rev d) k = None <-> dict_mem d k = false.
Proof.
  rewrite dict_get_none_iff, map_rev, <- in_rev, <- dict_get_none_iff.
  unfold dict_mem. destruct (dict_get d k); split; congruence.
Qed.

Lemma load_home_has_defaults st k :
  dict_mem (DEFAULT_HOME st) k = true -> dict_mem (_load_home st) k = true.
Proof.
  intros H. unfold dict_mem at 1. rewrite load_home_get, H.
  now destruct (dict_get (rev (file_cards st)) k).
Qed.

Lemma home_update_effect rt section body s st :
  default_sections st ->
  let sec := lower rt section in
  let title := field (json_body body) "title" in
  let text := field (json_body body) "text" in
  str_in sec [py "vagas"; py "projetos"; py "eventos"] = true ->
  title <> [] -> text <> [] ->
  let out := api_home_update_view rt section body s st in
  exists c,
    resp_of out = Json 200 (JHome sec c)
    /\ dict_get c (py "title") = Some title
    /\ dict_get c (py "text") = Some text
    /\ dict_get (home_cards (store_of out)) sec = Some c
    /\ (forall k, k <> sec ->
                  dict_get (home_cards (store_of out)) k
                  = dict_get (home_cards st) k)
    /\ (dict_mem (file_cards st) sec = false ->
        dict_get (DEFAULT_HOME (store_of out)) sec = Some c)
    /\ (dict_mem (file_cards st) sec = true ->
        DEFAULT_HOME (store_of out) = DEFAULT_HOME st)
    /\ default_sections (store_of out)
    /\ session_of out = s
    /\ _load_vagas (store_of out) = _load_vagas st.
Proof.
  intros Hwf. cbv zeta. intros Hsec Ht Hx.
  unfold api_home_update_view. rewrite Hsec. cbn [negb].
  rewrite (is_empty_false Ht), (is_empty_false Hx). cbn [orb].
  set (sec := lower rt section) in *.
  set (title := field (json_body body) "title") in *.
  set (text := field (json_body body) "text") in *.
  pose proof (@valid_section_mem st sec Hwf Hsec) as Hmem.
  pose proof (load_home_NoDup Hwf) as Hnd.
  pose proof (load_home_get st sec) as Hget. rewrite Hmem in Hget.
  destruct (dict_get (rev (file_cards st)) sec) as [c0 | ] eqn:Ef.
  - (* the card came from the file *)
    set (c1 := dict_set c0 (py "title") title).
    set (c2 := dict_set c1 (py "text") text).
    set (home1 := dict_set (_load_home st) sec (Fresh c1)).
    set (home2 := dict_set home1 sec (Fresh c2)).
    assert (E1 : assign_card st (_load_home st) sec (py "title") title
                 = Some (st, home1))
      by (unfold assign_card; now rewrite Hget).
    assert (E2 : assign_card st home1 sec (py "text") text
                 = Some (st, home2))
      by (unfold assign_card, home1; now rewrite dict_get_set_same).
    assert (E3 : dict_get home2 sec = Some (Fresh c2))
      by (unfold home2; apply dict_get_set_same).
    rewrite E1, E2, E3.
    unfold resp_of, store_of. cbn [fst snd deref].
    assert (Hk2 : List.map fst home2 = List.map fst (_load_home st)).
    { assert (Hm : dict_mem (_load_home st) sec = true)
        by (eapply dict_get_mem; exact Hget).
      unfold home2. rewrite dict_set_mem_keys.
      - unfold home1. now rewrite dict_set_mem_keys.
      - unfold home1. now apply dict_mem_set. }
    assert (Hcards : forall k,
               dict_get (home_cards (_save_home st home2)) k
               = match dict_get home2 k with
                 | Some r => Some (deref st r)
                 | None => None
                 end).
    { intros k. unfold home_cards. rewrite home_values_get, load_home_get.
      change (file_cards (_save_home st home2)) with (home_values st home2).
      rewrite dict_get_rev
        by (unfold home_values; rewrite map_fst_pair, Hk2; exact Hnd).
      rewrite home_values_get.
      destruct (dict_get home2 k) as [r | ] eqn:E; [reflexivity | ].
      cbn [DEFAULT_HOME _save_home].
      destruct (dict_mem (DEFAULT_HOME st) k) eqn:Em; [ | reflexivity].
      exfalso. destruct (dict_mem_get _ _ (load_home_has_defaults _ _ Em))
        as (r & Hr).
      apply dict_get_In in Hr. rewrite <- Hk2 in Hr.
      apply In_dict_mem in Hr. unfold dict_mem in Hr.
      rewrite E in Hr. discriminate. }
    exists c2. split; [reflexivity | ].
    destruct (card_fields c0 title text) as [Hc1 Hc2].
    split; [exact Hc1 | ]. split; [exact Hc2 | ].
    split; [ | split; [ | split; [ | split; [ | split;
      [ | split; reflexivity]]]]].
    + now rewrite Hcards, E3.
    + intros k Hk. rewrite Hcards. unfold home2, home1.
      rewrite !dict_get_set_other by exact Hk.
      unfold home_cards. now rewrite home_values_get.
    + intros H. apply dict_mem_rev in H. congruence.
    + reflexivity.
    + exact Hwf.
  - (* the card is the one of DEFAULT_HOME itself *)
    destruct (dict_mem_get _ _ Hmem) as (d0 & Hd0).
    set (c1 := dict_set d0 (py "title") title).
    set (c2 := dict_set c1 (py "text") text).
    set (D1 := dict_set (DEFAULT_HOME st) sec c1).
    set (D2 := dict_set D1 sec c2).
    set (st1 := set_DEFAULT_HOME st D1).
    set (st2 := set_DEFAULT_HOME st1 D2).
    assert (E1 : assign_card st (_load_home st) sec (py "title") title
                 = Some (st1, _load_home st)).
    { unfold assign_card. rewrite Hget. cbn [deref]. now rewrite Hd0. }
    assert (E2 : assign_card st1 (_load_home st) sec (py "text") text
                 = Some (st2, _load_home st)).
    { assert (HD1 : dict_get D1 sec = Some c1)
        by (unfold D1; apply dict_get_set_same).
      unfold assign_card. rewrite Hget. cbn [deref].
      change (DEFAULT_HOME st1) with D1. now rewrite HD1. }
    rewrite E1, E2, Hget.
    unfold resp_of, store_of. cbn [fst snd deref].
    assert (HD2 : DEFAULT_HOME (_save_home st2 (_load_home st)) = D2)
      by reflexivity.
    assert (Hkeys : List.map fst D2 = List.map fst (DEFAULT_HOME st)).
    { unfold D2. rewrite dict_set_mem_keys.
      - unfold D1. now rewrite dict_set_mem_keys.
      - unfold D1. now apply dict_mem_set. }
    assert (Hsec2 : dict_get D2 sec = Some c2)
      by (unfold D2; apply dict_get_set_same).
    assert (Hother : forall k, k <> sec ->
                               dict_get D2 k = dict_get (DEFAULT_HOME st) k).
    { intros k Hk. unfold D2, D1. now rewrite !dict_get_set_other. }
    assert (Hcards : forall k,
               dict_get (home_cards (_save_home st2 (_load_home st))) k
               = match dict_get (_load_home st) k with
                 | Some r => Some (deref st2 r)
                 | None => None
                 end).
    { intros k. unfold home_cards. rewrite home_values_get, load_home_get.
      change (file_cards (_save_home st2 (_load_home st)))
        with (home_values st2 (_load_home st)).
      rewrite dict_get_rev
        by (unfold home_values; rewrite map_fst_pair; exact Hnd).
      rewrite home_values_get.
      destruct (dict_get (_load_home st) k) as [r | ] eqn:E; [reflexivity | ].
      rewrite HD2.
      destruct (dict_mem D2 k) eqn:Em; [ | reflexivity].
      exfalso.
      assert (Em' : dict_mem (DEFAULT_HOME st) k = true).
      { apply In_dict_mem. rewrite <- Hkeys.
        destruct (dict_mem_get _ _ Em) as (v & Hv).
        eapply dict_get_In. exact Hv. }
      pose proof (load_home_has_defaults _ _ Em') as Hm.
      unfold dict_mem in Hm. rewrite E in Hm. discriminate. }
    rewrite HD2, Hsec2.
    exists c2. split; [reflexivity | ].
    destruct (card_fields d0 title text) as [Hc1 Hc2].
    split; [exact Hc1 | ]. split; [exact Hc2 | ].
    split; [ | split; [ | split; [ | split; [ | split;
      [ | split; reflexivity]]]]].
    + rewrite Hcards, Hget. cbn [deref]. change (DEFAULT_HOME st2) with D2.
      now rewrite Hsec2.
    + intros k Hk. rewrite Hcards. unfold home_cards.
      rewrite home_values_get.
      destruct (dict_get (_load_home st) k) as [[k' | c] | ] eqn:E;
        try reflexivity.
      cbn [deref]. change (DEFAULT_HOME st2) with D2.
      pose proof (load_home_get st k) as Hk'. rewrite E in Hk'.
      destruct (dict_get (rev (file_cards st)) k); [discriminate | ].
      destruct (dict_mem (DEFAULT_HOME st) k); [ | discriminate].
      injection Hk' as ->. now rewrite Hother.
    + intros _. reflexivity.
    + intros H. apply dict_mem_rev in Ef. congruence.
    + unfold default_sections. rewrite HD2, Hkeys. exact Hwf.
Qed.

Lemma home_cards_without_file st k :
  HOME_JSON st = Absent ->
  dict_get (home_cards st) k
  = match dict_get (DEFAULT_HOME st) k with
    | Some c => Some c
    | None => None
    end.
Proof.
  intros H. unfold home_cards. rewrite home_values_get, load_home_get.
  unfold file_cards. rewrite H. cbn [_load_json cards rev dict_get].
  unfold dict_mem. destruct (dict_get (DEFAULT_HOME st) k) eqn:E;
    [ | reflexivity].
  cbn [deref]. now rewrite E.
Qed.

(** After an administrator's successful [api_home_update] the home page
    shows, for that section, the card returned in the response, whose title
    and text are the trimmed values sent; the cards of the other sections
    are the ones it showed before. *)
Theorem home_update_shows_new_card (rt : platform) (path section : pystr)
        (body : option (dict pystr)) (s : session) (st : store) :
  logged_in s = true -> admin s = true ->
  default_sections st ->
  let sec := lower rt section in
  let title := field (json_body body) "title" in
  let text := field (json_body body) "text" in
  str_in sec [py "vagas"; py "projetos"; py "eventos"] = true ->
  title <> [] -> text <> [] ->
  let out := api_home_update rt path section body s st in
  exists c,
    resp_of out = Json 200 (JHome sec c)
    /\ dict_get c (py "title") = Some title
    /\ dict_get c (py "text") = Some text
    /\ resp_of (home (session_of out) (store_of out))
       = Html (IndexHtml (_load_vagas st) (home_cards (store_of out))
                         (admin s))
    /\ dict_get (home_cards (store_of out)) sec = Some c
    /\ (forall k, k <> sec ->
                  dict_get (home_cards (store_of out)) k
                  = dict_get (home_cards st) k).
Proof.
  intros Hl Ha Hwf. cbv zeta. intros Hsec Ht Hx.
  unfold api_home_update. rewrite admin_required_pass by assumption.
  destruct (@home_update_effect rt section body s st Hwf Hsec Ht Hx)
    as (c & H1 & H2 & H3 & H4 & H5 & _ & _ & _ & H9 & H10).
  exists c. repeat split; try assumption.
  unfold home, resp_of at 1. cbn [fst]. rewrite H9, H10. reflexivity.
Qed.

Lemma home_update_shows_new_card_witness :
  exists c,
    dict_get
      (home_cards
         (store_of (api_home_update
                      Sample.toy (py "/api/admin/home/Eventos")
                      (py "Eventos")
                      (Some [(py "title", py " Semana de TI ");
                             (py "text", py "Palestras")])
                      Sample.ana initial_store)))
      (py "eventos") = Some c
    /\ dict_get c (py "title") = Some (py "Semana de TI").
Proof.
  destruct (@home_update_shows_new_card
              Sample.toy (py "/api/admin/home/Eventos") (py "Eventos")
              (Some [(py "title", py " Semana de TI ");
                     (py "text", py "Palestras")])
              Sample.ana initial_store eq_refl eq_refl eq_refl eq_refl
              ltac:(discriminate) ltac:(discriminate))
    as (c & _ & H2 & _ & _ & H5 & _).
  exists c. split; assumption.
Defined.

(** When the section edited has no card in [home.json], the card that
    [api_home_update] assigns to is the dictionary inside [DEFAULT_HOME]
    itself: the process-wide default takes the new title and text, and a
    later page built without the file (the file removed, say) still shows
    the edited card.  When the file has a card for the section,
    [DEFAULT_HOME] stays as it was. *)
Theorem home_update_writes_through_defaults (rt : platform)
        (path section : pystr) (body : option (dict pystr))
        (s : session) (st : store) :
  logged_in s = true -> admin s = true ->
  default_sections st ->
  let sec := lower rt section in
  let title := field (json_body body) "title" in
  let text := field (json_body body) "text" in
  str_in sec [py "vagas"; py "projetos"; py "eventos"] = true ->
  title <> [] -> text <> [] ->
  let out := api_home_update rt path section body s st in
  (dict_mem (file_cards st) sec = true ->
   DEFAULT_HOME (store_of out) = DEFAULT_HOME st)
  /\ (dict_mem (file_cards st) sec = false ->
      exists c,
        dict_get (DEFAULT_HOME (store_of out)) sec = Some c
        /\ dict_get c (py "title") = Some title
        /\ dict_get c (py "text") = Some text
        /\ (forall st',
               DEFAULT_HOME st' = DEFAULT_HOME (store_of out) ->
               HOME_JSON st' = Absent ->
               dict_get (home_cards st') sec = Some c)).
Proof.
  intros Hl Ha Hwf. cbv zeta. intros Hsec Ht Hx.
  unfold api_home_update. rewrite admin_required_pass by assumption.
  destruct (@home_update_effect rt section body s st Hwf Hsec Ht Hx)
    as (c & _ & H2 & H3 & _ & _ & H6 & H7 & _).
  split; [exact H7 | ].
  intros Hf. exists c. specialize (H6 Hf). repeat split; try assumption.
  intros st' HD HA. rewrite home_cards_without_file by exact HA.
  now rewrite HD, H6.
Qed.

Lemma home_update_writes_through_defaults_witness :
  exists c,
    dict_get
      (DEFAULT_HOME
         (store_of (api_home_update
                      Sample.toy (py "/api/admin/home/eventos")
                      (py "eventos")
                      (Some [(py "title", py "Semana de TI");
                             (py "text", py "Palestras")])
                      Sample.ana initial_store)))
      (py "eventos") = Some c
    /\ dict_get c (py "title") = Some (py "Semana de TI").
Proof.
  destruct (proj2 (@home_update_writes_through_defaults
                     Sample.toy (py "/api/admin/home/eventos") (py "eventos")
                     (Some [(py "title", py "Semana de TI");
                            (py "text", py "Palestras")])
                     Sample.ana initial_store eq_refl eq_refl eq_refl eq_refl
                     ltac:(discriminate) ltac:(discriminate)) eq_refl)
    as (c & H1 & H2 & _).
  exists c. split; assumption.
Defined.



(** ** More on the chat core *)

Lemma api_chat_word_budget_witness :
  List.length
    (split (py "Use um portfolio com projetos reais e descreva resultados."))
  <= 120.
Proof.
  refine (@api_chat_word_budget
            (fun t => t)
            (Some (fun _ =>
                     Return (Some (py "1. Use um portfolio com projetos reais e descreva resultados."))))
            (Some (py "dicas?")) _ _).
  vm_compute. reflexivity.
Defined.

Lemma api_chat_empty_text_witness :
  api_chat (fun t => t) (Some (fun _ => Return (Some (py "  "))))
           (Some (py " meu cv "))
  = Return (Reply200 (_fallback_reply (fun t => t) (Some (py "meu cv")))).
Proof.
  refine (@api_chat_empty_text
            (fun t => t) (fun _ => Return (Some (py "  ")))
            (Some (py " meu cv ")) (Some (py "  ")) _ _ _).
  - vm_compute. discriminate.
  - reflexivity.
  - reflexivity.
Defined.

(** With a budget of one word or more, what [_clean] returns has at most
    that many words, the word carrying the ellipsis included. *)
Theorem clean_keeps_to_budget (text : option pystr) (max_words : Z) :
  (1 <= max_words)%Z ->
  (Z.of_nat (List.length (split (_clean text max_words))) <= max_words)%Z.
Proof. apply clean_word_budget. Qed.

Lemma clean_keeps_to_budget_witness :
  (Z.of_nat (List.length (split (_clean (Some (py "a b c d e")) 2))) <= 2)%Z.
Proof.
  refine (@clean_keeps_to_budget (Some (py "a b c d e")) 2 _). lia.
Defined.

(** What [_clean] returns, truncated or not, has no whitespace at either
    end (so [strip] leaves it alone) and no line boundary other than the
    line feed. *)
Theorem clean_result_is_trimmed (text : option pystr) (max_words : Z) :
  let y := _clean text max_words in
  head_in isspace y = false
  /\ last_in isspace y = false
  /\ strip y = y
  /\ (forall c, In c y -> islinebreak c = true -> c = LF).
Proof.
  cbv zeta. destruct (clean_shape_clean text max_words) as (Ho & Hh & Hl & _).
  repeat split; try assumption. now apply strip_fix.
Qed.

Lemma splitlines_In s :
  forall l c, In l (splitlines s) -> In c l -> In c s.
Proof.
  induction s as [s IH] using (well_founded_induction
                                 (Wf_nat.well_founded_ltof _ (@List.length char))).
  unfold Wf_nat.ltof in IH.
  destruct s as [ | d s]; intros l c Hl Hc; [destruct Hl | ].
  cbn [splitlines] in Hl. destruct (islinebreak d) eqn:E.
  - destruct (N.eqb d CR).
    + destruct s as [ | e s].
      * destruct Hl as [<- | []]. destruct Hc.
      * destruct (N.eqb e LF); destruct Hl as [<- | Hl]; try (now destruct Hc).
        -- right. right. apply (IH s) with (l := l); simpl; auto.
        -- right. apply (IH (e :: s)) with (l := l); simpl; auto.
    + destruct Hl as [<- | Hl]; [destruct Hc | ].
      right. apply (IH s) with (l := l); simpl; auto.
  - destruct (splitlines s) as [ | l0 ls] eqn:F.
    + destruct Hl as [<- | []]. destruct Hc as [<- | []]. now left.
    + destruct Hl as [<- | Hl].
      * destruct Hc as [<- | Hc]; [now left | ].
        right. apply (IH s) with (l := l0); simpl; auto. rewrite F. now left.
      * right. apply (IH s) with (l := l); simpl; auto. rewrite F. now right.
Qed.

Lemma denumerate_blank text :
  forallb isspace (or_empty text) = true -> _denumerate text = [].
Proof.
  intros H. unfold _denumerate.
  assert (E : strip (join [LF]
                       (List.map (fun ln => Re.sub marker_re [] ln)
                                 (splitlines (or_empty text)))) = []).
  { apply strip_nil_iff, forallb_forall. intros c Hc.
    apply join_In in Hc. destruct Hc as [[<- | []] | (l & Hl & Hc)];
      [reflexivity | ].
    apply in_map_iff in Hl. destruct Hl as (ln & <- & Hln).
    apply sub_marker_In in Hc.
    rewrite forallb_forall in H. apply H. eapply splitlines_In; eauto. }
  rewrite E. reflexivity.
Qed.

(** On a text that is absent, empty or made of whitespace only, [_clean]
    returns the empty string for every budget from 0 up, and the bare
    ellipsis for a negative budget. *)
Theorem clean_blank_input (text : option pystr) (max_words : Z) :
  forallb isspace (or_empty text) = true ->
  ((0 <= max_words)%Z -> _clean text max_words = [])
  /\ ((max_words < 0)%Z -> _clean text max_words = py "...").
Proof.
  intros H. unfold _clean. rewrite (denumerate_blank _ H).
  change (split []) with (@nil pystr). cbn [List.length Z.of_nat].
  split; intros Hk.
  - destruct (0 >? max_words)%Z eqn:E; [ | reflexivity].
    apply Z.gtb_lt in E. lia.
  - assert (E : (0 >? max_words)%Z = true) by (apply Z.gtb_lt; lia).
    rewrite E. unfold slice_to. rewrite firstn_nil. reflexivity.
Qed.

Lemma clean_blank_input_witness :
  _clean (Some (py "  " ++ [LF] ++ py " ")) 120 = []
  /\ _clean None (-1) = py "...".
Proof.
  split.
  - refine (proj1 (@clean_blank_input (Some (py "  " ++ [LF] ++ py " ")) 120 _)
                  _); [reflexivity | lia].
  - refine (proj2 (@clean_blank_input None (-1) _) _); [reflexivity | lia].
Defined.

(** While [vagas.json] is missing or unreadable the public listing is the
    empty list, and the first listing an administrator creates gets the id 1
    and becomes the whole content of the file. *)
Theorem listings_start_empty (path : pystr) (body : option (dict pystr))
        (s : session) (st : store) :
  VAGAS_JSON st = Absent \/ VAGAS_JSON st = Garbled ->
  resp_of (api_vagas_public s st) = Json 200 (JVagas [])
  /\ (logged_in s = true -> admin s = true ->
      forall v,
        resp_of (api_vagas_create path body s st) = Json 201 (JVaga v) ->
        vaga_id v = 1%Z
        /\ VAGAS_JSON (store_of (api_vagas_create path body s st))
           = Holds [v]).
Proof.
  intros Hf.
  assert (Hl : _load_vagas st = [])
    by (unfold _load_vagas; destruct Hf as [-> | ->]; reflexivity).
  split.
  - unfold api_vagas_public, resp_of. cbn [fst]. now rewrite Hl.
  - intros Hlog Hadm v. unfold api_vagas_create.
    rewrite admin_required_pass by assumption.
    unfold api_vagas_create_view. rewrite Hl.
    destruct (is_empty (field (json_body body) "titulo")
              || is_empty (field (json_body body) "empresa"));
      unfold resp_of, store_of; cbn [fst snd]; [discriminate | ].
    intros H. injection H as <-. split; reflexivity.
Qed.

Lemma listings_start_empty_witness :
  resp_of (api_vagas_public anonymous initial_store) = Json 200 (JVagas []).
Proof.
  refine (proj1 (@listings_start_empty [] None anonymous initial_store _)).
  left. reflexivity.
Defined.
